(** * Shallow embedding of [backend/app.py] (AI-Travel-Planner)

    The backend is a FastAPI proxy: it trades an API key for a bearer
    token at the IBM identity service, caches the token, and forwards chat
    messages to a watsonx deployment.  This file embeds the token cache,
    [get_ibm_token] (with its tenacity retry decorator),
    [get_watsonx_payload], [format_response], [health_check] and [chat],
    and proves the properties stated about them.

    Conventions.
    - Python objects obtained by decoding JSON are values of [value].
    - Python exceptions are values of [exn]; a computation that can raise
      returns a [Result].
    - Code that touches the module-level [token_cache], the clock or the
      network runs in the monad [M]: explicit passing of a [World].
    - [time.time()] readings are integers (clock ticks); only their order
      and the addition of the constant 3600 are used by the code. *)

From Stdlib Require Import ZArith List String Ascii Bool Lia PrimFloat DecimalString.
Import ListNotations.

Set Warnings "-inexact-float,-register-all".

Open Scope string_scope.
Open Scope Z_scope.

(** ** Python values and exceptions *)

(** What [json.loads] / [Response.json()] can produce.  A dict keeps its
    insertion order; looking a key up returns its first binding. *)
Inductive value : Type :=
| VNone
| VBool (b : bool)
| VInt (z : Z)
| VFloat (f : float)
| VStr (s : string)
| VList (l : list value)
| VDict (d : list (string * value)).

(** An HTTP response as [requests] hands it over: the status code, the
    body text, and what [Response.json()] makes of the body ([None] when
    the body is not valid JSON). *)
Record Response : Type := mkResponse {
  status_code : Z;
  text : string;
  json : option value
}.

(** The two network-level failures of [requests.post] the code names in
    its timeouts: both are [RequestException]s that carry no response. *)
Inductive NetworkError : Type := ConnectionError | Timeout.

Inductive exn : Type :=
| HTTPException (code : Z) (detail : string)   (* fastapi.HTTPException *)
| NetworkException (k : NetworkError)          (* requests.exceptions.{ConnectionError,Timeout} *)
| HTTPError (r : Response)                     (* requests.exceptions.HTTPError *)
| JSONDecodeError                              (* raised by Response.json() *)
| ValidationError                              (* pydantic, a ValueError *)
| KeyError
| IndexError
| TypeError
| AttributeError.

Inductive Result (A : Type) : Type :=
| Ret (a : A)
| Raise (e : exn).
Arguments Ret {A} a.
Arguments Raise {A} e.

Definition rbind {A B} (r : Result A) (k : A -> Result B) : Result B :=
  match r with
  | Ret a => k a
  | Raise e => Raise e
  end.

Declare Scope result_scope.
Delimit Scope result_scope with result.
Notation "x <- r ;; k" := (rbind r (fun x => k))
  (at level 61, r at next level, right associativity) : result_scope.

(** ** Python's operations on decoded JSON *)

Definition str_nonempty (s : string) : bool :=
  match s with
  | EmptyString => false
  | String _ _ => true
  end.

(** [bool(v)]. *)
Definition truthy (v : value) : bool :=
  match v with
  | VNone => false
  | VBool b => b
  | VInt z => negb (z =? 0)
  | VFloat f => negb (PrimFloat.eqb f 0%float)
  | VStr s => str_nonempty s
  | VList l => match l with [] => false | _ :: _ => true end
  | VDict d => match d with [] => false | _ :: _ => true end
  end.

Fixpoint dict_lookup (d : list (string * value)) (k : string) : option value :=
  match d with
  | [] => None
  | (k', v) :: d' => if String.eqb k' k then Some v else dict_lookup d' k
  end.

(** [p in s] for two strings. *)
Fixpoint is_substring (p s : string) : bool :=
  String.prefix p s ||
  match s with
  | EmptyString => false
  | String _ s' => is_substring p s'
  end.

(** [k in v] for a string [k]: key membership for a dict, element
    equality for a list, substring test for a string; the other decoded
    values are not iterable. *)
Definition py_contains (k : string) (v : value) : Result bool :=
  match v with
  | VDict d => Ret (match dict_lookup d k with Some _ => true | None => false end)
  | VList l =>
      Ret (existsb (fun x => match x with VStr s => String.eqb s k | _ => false end) l)
  | VStr s => Ret (is_substring k s)
  | _ => Raise TypeError
  end.

(** [v[k]] for a string [k]. *)
Definition getitem_key (v : value) (k : string) : Result value :=
  match v with
  | VDict d => match dict_lookup d k with Some x => Ret x | None => Raise KeyError end
  | _ => Raise TypeError
  end.

(** [v[0]]. *)
Definition getitem_0 (v : value) : Result value :=
  match v with
  | VList l => match l with x :: _ => Ret x | [] => Raise IndexError end
  | VStr s => match s with
              | String c _ => Ret (VStr (String c EmptyString))
              | EmptyString => Raise IndexError
              end
  | VDict _ => Raise KeyError
  | _ => Raise TypeError
  end.

(** [v.get(k, default)]: only a dict has the method. *)
Definition py_get (v : value) (k : string) (default : value) : Result value :=
  match v with
  | VDict d => Ret (match dict_lookup d k with Some x => x | None => default end)
  | _ => Raise AttributeError
  end.

(** [str(n)] for an integer. *)
Definition str_of_int (n : Z) : string := NilZero.string_of_int (Z.to_int n).

(** Python's whitespace test on the code points below 256, as [str.strip]
    uses it. *)
Definition isspace (c : ascii) : bool :=
  let n := nat_of_ascii c in
  ((9 <=? n) && (n <=? 13) || (28 <=? n) && (n <=? 32) || (n =? 133) || (n =? 160))%nat.

Fixpoint lstrip (s : string) : string :=
  match s with
  | EmptyString => EmptyString
  | String c s' => if isspace c then lstrip s' else s
  end.

Fixpoint rstrip (s : string) : string :=
  match s with
  | EmptyString => EmptyString
  | String c s' =>
      match rstrip s' with
      | EmptyString => if isspace c then EmptyString else String c EmptyString
      | t => String c t
      end
  end.

(** [s.strip()]. *)
Definition strip (s : string) : string := rstrip (lstrip s).

(** ** Configuration and endpoints *)

Record Config : Type := mkConfig {
  API_KEY : string;
  PROJECT_ID : string;
  DEPLOYMENT_ID : string;
  REGION : string;
  API_VERSION : string
}.

Definition CONFIG : Config :=
  {| API_KEY := "your_API_KEY";
     PROJECT_ID := "your_PROJECT_ID";
     DEPLOYMENT_ID := "your_DEPLOYMENT_ID";
     REGION := "us-south";
     API_VERSION := "2021-05-01" |}.

Definition TOKEN_URL : string := "https://iam.cloud.ibm.com/identity/token".
Definition BASE_ENDPOINT : string :=
  "https://" ++ REGION CONFIG ++ ".ml.cloud.ibm.com/ml/v4/deployments/" ++ DEPLOYMENT_ID CONFIG.
Definition REGULAR_ENDPOINT : string :=
  BASE_ENDPOINT ++ "/ai_service?version=" ++ API_VERSION CONFIG.
Definition STREAMING_ENDPOINT : string :=
  BASE_ENDPOINT ++ "/ai_service_stream?version=" ++ API_VERSION CONFIG.

(** ** [get_watsonx_payload] *)

Definition generation_parameters : value :=
  VDict [ ("max_new_tokens", VInt 200);
          ("temperature", VFloat 0.7%float);
          ("top_p", VFloat 0.9%float);
          ("repetition_penalty", VFloat 1.1%float) ].

Definition get_watsonx_payload (message : string) : value :=
  VDict [ ("messages", VList [ VDict [ ("content", VStr message); ("role", VStr "user") ] ]);
          ("project_id", VStr (PROJECT_ID CONFIG));
          ("parameters", generation_parameters) ].

(** ** The world the handlers run in *)

(** The module-level [token_cache] dict. *)
Record Cache : Type := mkCache {
  token : value;
  expires_at : Z
}.

(** What one [requests.post] does: it raises a network-level
    [RequestException], or it returns a response (of any status). *)
Inductive PostOutcome : Type :=
| Fails (k : NetworkError)
| Responds (r : Response).

(** A request sent to the inference deployment. *)
Record Request : Type := mkRequest {
  url : string;
  body : value;
  authorization : string
}.

(** The outside: the reading of each successive [time.time()] call, the
    outcome of each successive POST to [TOKEN_URL], and the outcome of each
    successive POST to the deployment (which may depend on what is sent). *)
Record Env : Type := mkEnv {
  clock : nat -> Z;
  identity : nat -> PostOutcome;
  inference : nat -> Request -> PostOutcome
}.

(** The state threaded through a handler: the token cache, how often the
    clock was read and the identity service contacted, the requests sent to
    the deployment (latest first), the waits slept by the retry decorator
    (latest first) and the decorator's attempt counter (tenacity's
    [statistics["attempt_number"]] of the latest call). *)
Record World : Type := mkWorld {
  token_cache : Cache;
  time_reads : nat;
  token_posts : nat;
  sent : list Request;
  slept : list Z;
  attempt_number : nat
}.

Definition M (A : Type) : Type := World -> Result A * World.

Definition ret {A} (a : A) : M A := fun w => (Ret a, w).
Definition raise {A} (e : exn) : M A := fun w => (Raise e, w).
Definition lift {A} (r : Result A) : M A := fun w => (r, w).

Definition bind {A B} (m : M A) (k : A -> M B) : M B :=
  fun w =>
    match m w with
    | (Ret a, w') => k a w'
    | (Raise e, w') => (Raise e, w')
    end.

(** [try: m except Exception as e: handler e]. *)
Definition try_except {A} (m : M A) (handler : exn -> M A) : M A :=
  fun w =>
    match m w with
    | (Ret a, w') => (Ret a, w')
    | (Raise e, w') => handler e w'
    end.

Declare Scope M_scope.
Delimit Scope M_scope with M.
Notation "x <- m ;; k" := (bind m (fun x => k))
  (at level 61, m at next level, right associativity) : M_scope.
Notation "m ;; k" := (bind m (fun _ => k))
  (at level 61, right associativity) : M_scope.

(** The elementary changes of the world. *)

Definition with_cache (c : Cache) (w : World) : World :=
  mkWorld c (time_reads w) (token_posts w) (sent w) (slept w) (attempt_number w).

Definition tick (w : World) : World :=
  mkWorld (token_cache w) (S (time_reads w)) (token_posts w) (sent w) (slept w)
          (attempt_number w).

Definition count_token_post (w : World) : World :=
  mkWorld (token_cache w) (time_reads w) (S (token_posts w)) (sent w) (slept w)
          (attempt_number w).

Definition record_sent (rq : Request) (w : World) : World :=
  mkWorld (token_cache w) (time_reads w) (token_posts w) (rq :: sent w) (slept w)
          (attempt_number w).

Definition record_sleep (d : Z) (w : World) : World :=
  mkWorld (token_cache w) (time_reads w) (token_posts w) (sent w) (d :: slept w)
          (attempt_number w).

Definition with_attempt_number (n : nat) (w : World) : World :=
  mkWorld (token_cache w) (time_reads w) (token_posts w) (sent w) (slept w) n.

Definition get_cache : M Cache := fun w => (Ret (token_cache w), w).

(** [token_cache["token"] = v]. *)
Definition set_token (v : value) : M unit :=
  fun w => (Ret tt, with_cache (mkCache v (expires_at (token_cache w))) w).

(** [token_cache["expires_at"] = t]. *)
Definition set_expires_at (t : Z) : M unit :=
  fun w => (Ret tt, with_cache (mkCache (token (token_cache w)) t) w).

(** [time.sleep(d)], as the retry decorator calls it between attempts. *)
Definition time_sleep (d : Z) : M unit :=
  fun w => (Ret tt, record_sleep d w).

Definition set_attempt_number (n : nat) : M unit :=
  fun w => (Ret tt, with_attempt_number n w).

Definition get_attempt_number : M nat := fun w => (Ret (attempt_number w), w).

(** ** Classes of exceptions *)

Definition is_ValueError (e : exn) : bool :=
  match e with
  | JSONDecodeError | ValidationError => true
  | _ => false
  end.

(** [Response.raise_for_status()]: an [HTTPError] for a 4xx or 5xx. *)
Definition raise_for_status (r : Response) : Result unit :=
  if (400 <=? status_code r) && (status_code r <? 600) then Raise (HTTPError r) else Ret tt.

(** [Response.json()]. *)
Definition response_json (r : Response) : Result value :=
  match json r with
  | Some v => Ret v
  | None => Raise JSONDecodeError
  end.

(** ** The retry decorator (tenacity) *)

(** [wait_exponential(multiplier, min, max)] after attempt number [n]. *)
Definition wait_exponential (multiplier min max : Z) (n : nat) : Z :=
  Z.max (Z.max 0 min) (Z.min (multiplier * 2 ^ (Z.of_nat n - 1)) max).

(** The retry loop once an attempt may still be followed by [remaining]
    others: a raising attempt is followed by a sleep and the next attempt
    while [remaining] is positive, and its exception is raised again as it
    is ([reraise=True]) otherwise.  A returning attempt ends the loop. *)
Fixpoint retrying {A} (remaining : nat) (wait : nat -> Z) (fn : M A) : M A :=
  try_except fn
    (fun e =>
       match remaining with
       | O => raise e
       | S k =>
           (n <- get_attempt_number ;;
            time_sleep (wait n) ;;
            set_attempt_number (S n) ;;
            retrying k wait fn)%M
       end).

(** [@retry(stop=stop_after_attempt(max_attempts), wait=wait, reraise=True)]:
    attempts are numbered from 1 and the loop stops once the attempt number
    has reached [max_attempts]. *)
Definition retry {A} (max_attempts : nat) (wait : nat -> Z) (fn : M A) : M A :=
  (set_attempt_number 1 ;; retrying (max_attempts - 1) wait fn)%M.

(** ** Response models *)

Record ChatMessage : Type := mkChatMessage {
  message : string;
  stream : bool
}.

Module ChatResponse.
Record t : Type := mk {
  response : string;
  status : string
}.
End ChatResponse.

Module HealthResponse.
Record t : Type := mk {
  status : string;
  api_ready : bool
}.
End HealthResponse.

(** ** The handlers *)

(** Behaviour of the libraries the module runs on, taken as given:
    - [py_repr v] is Python's [repr] of a decoded value that is not a
      string (for those, [str] and an f-string field render the same);
    - [validate_str v] is pydantic's validation of [v] for a field
      declared [str]: the string kept, or [None] when it raises
      [ValidationError];
    - [json_error_is_request_exception] tells whether the exception of
      [Response.json()] is a [RequestException] (it is from requests 2.27
      on, and a plain [ValueError] before). *)
Record Libs : Type := mkLibs {
  py_repr : value -> string;
  validate_str : value -> option string;
  json_error_is_request_exception : bool
}.

Section Backend.

Variable lib : Libs.

(** The outside the handlers talk to. *)
Variable env : Env.

(** [str(v)], also what [f"{v}"] renders. *)
Definition py_str (v : value) : string :=
  match v with
  | VStr s => s
  | _ => py_repr lib v
  end.

Definition is_RequestException (e : exn) : bool :=
  match e with
  | NetworkException _ | HTTPError _ => true
  | JSONDecodeError => json_error_is_request_exception lib
  | _ => false
  end.

(** *** [format_response] *)

(** The body of the [try] block. *)
Definition format_response_try (data : value) : Result value :=
  (has_choices <- py_contains "choices" data ;;
   if has_choices then
     choices <- getitem_key data "choices" ;;
     if truthy choices then
       first <- getitem_0 choices ;;
       msg <- py_get first "message" (VDict []) ;;
       py_get msg "content" (VStr "No response content")
     else Ret (VStr (py_str data))
   else Ret (VStr (py_str data)))%result.

Definition format_response (data : value) : Result value :=
  match format_response_try data with
  | Ret v => Ret v
  | Raise _ => Ret (VStr "Received response but couldn't parse it")
  end.

(** *** Clock and network *)

(** [time.time()]. *)
Definition time_time : M Z :=
  fun w => (Ret (clock env (time_reads w)), tick w).

(** [requests.post(TOKEN_URL, ...)]: the form data and headers are fixed. *)
Definition requests_post_token : M Response :=
  fun w =>
    match identity env (token_posts w) with
    | Fails k => (Raise (NetworkException k), count_token_post w)
    | Responds r => (Ret r, count_token_post w)
    end.

(** [requests.post(endpoint, json=payload, headers=headers, timeout=30)]. *)
Definition requests_post (rq : Request) : M Response :=
  fun w =>
    match inference env (List.length (sent w)) rq with
    | Fails k => (Raise (NetworkException k), record_sent rq w)
    | Responds r => (Ret r, record_sent rq w)
    end.

(** *** The token cache *)

(** The guard of line 70:
    [token_cache["token"] and token_cache["expires_at"] > time.time()].
    The clock is read only when the token is truthy. *)
Definition cache_hit : M bool :=
  (c <- get_cache ;;
   if truthy (token c) then
     now <- time_time ;;
     ret (now <? expires_at c)
   else ret false)%M.

(** Line 192: [token_cache["token"] = None]. *)
Definition invalidate : M unit := set_token VNone.

(** *** [get_ibm_token] *)

(** One run of the function's body, without the decorator. *)
Definition get_ibm_token_attempt : M value :=
  try_except
    (hit <- cache_hit ;;
     if hit then c <- get_cache ;; ret (token c)
     else
       response <- requests_post_token ;;
       lift (raise_for_status response) ;;
       token_data <- lift (response_json response) ;;
       access_token <- lift (getitem_key token_data "access_token") ;;
       set_token access_token ;;
       now <- time_time ;;
       set_expires_at (now + 3600) ;;
       c <- get_cache ;;
       ret (token c))%M
    (fun e =>
       if is_RequestException e
       then raise (HTTPException 503 "Authentication service unavailable")
       else raise (HTTPException 500 "Authentication failed")).

(** The decorated function. *)
Definition get_ibm_token : M value :=
  retry 3 (wait_exponential 1 4 10) get_ibm_token_attempt.

(** What the decorator does between a failed attempt and the next one. *)
Definition backoff (w : World) : World :=
  with_attempt_number (S (attempt_number w))
    (record_sleep (wait_exponential 1 4 10 (attempt_number w)) w).

(** *** [health_check] *)

Definition health_check : M HealthResponse.t :=
  try_except
    (tok <- get_ibm_token ;;
     ret (HealthResponse.mk "healthy" (truthy tok)))%M
    (fun _ => ret (HealthResponse.mk "unhealthy" false)).

(** *** [chat] *)

(** [ChatResponse(response=v, status=s)]. *)
Definition ChatResponse_new (v : value) (s : string) : Result ChatResponse.t :=
  match validate_str lib v with
  | Some r => Ret (ChatResponse.mk r s)
  | None => Raise ValidationError
  end.

Definition bearer (tok : value) : string := "Bearer " ++ py_str tok.

(** Lines 205-211: the detail of the 502 raised for an [HTTPError]. *)
Definition error_detail (r : Response) : Result string :=
  let error_detail := "HTTP Error: " ++ str_of_int (status_code r) in
  if str_nonempty (text r) then
    match
      (error_data <- response_json r ;;
       errors <- py_get error_data "errors" (VList [VDict []]) ;;
       first <- getitem_0 errors ;;
       msg <- py_get first "message" (VStr "Unknown error") ;;
       Ret (error_detail ++ " - " ++ py_str msg))%result
    with
    | Ret d => Ret d
    | Raise e =>
        if is_ValueError e then Ret (error_detail ++ " - " ++ text r) else Raise e
    end
  else Ret error_detail.

(** Lines 182-223: the API call with its single re-authentication. *)
Definition dispatch (endpoint : string) (payload : value) (tok : value) : M Response :=
  try_except
    (response <- requests_post (mkRequest endpoint payload (bearer tok)) ;;
     response <- (if status_code response =? 401 then
                    invalidate ;;
                    tok' <- get_ibm_token ;;
                    requests_post (mkRequest endpoint payload (bearer tok'))
                  else ret response) ;;
     lift (raise_for_status response) ;;
     ret response)%M
    (fun e =>
       match e with
       | HTTPError r =>
           (d <- lift (error_detail r) ;;
            raise (HTTPException 502 d))%M
       | _ =>
           if is_RequestException e
           then raise (HTTPException 503 "Service unavailable")
           else raise e
       end).

Definition chat (msg : ChatMessage) : M ChatResponse.t :=
  try_except
    ((if str_nonempty (strip (message msg)) then ret tt
      else raise (HTTPException 400 "Message cannot be empty")) ;;
     tok <- try_except get_ibm_token
              (fun _ => raise (HTTPException 401 "Authentication failed")) ;;
     let payload := get_watsonx_payload (message msg) in
     let endpoint := if stream msg then STREAMING_ENDPOINT else REGULAR_ENDPOINT in
     response <- dispatch endpoint payload tok ;;
     try_except
       (data <- lift (response_json response) ;;
        formatted <- lift (format_response data) ;;
        lift (ChatResponse_new formatted "success"))
       (fun e =>
          if is_ValueError e
          then raise (HTTPException 502 "Invalid response from service")
          else raise e))%M
    (fun e =>
       match e with
       | HTTPException _ _ => raise e
       | _ => raise (HTTPException 500 "Internal server error")
       end).

End Backend.

(** ** Sample settings

    Concrete libraries, services and module states on which the handlers
    are run below.  None of the runs renders a non-string value, so the
    sample [py_repr] is never consulted for its result. *)

Definition sample_libs : Libs :=
  mkLibs (fun _ => "<object>")
         (fun v => match v with VStr s => Some s | _ => None end)
         true.

(** The module state right after import: an empty cache. *)
Definition initial_world : World := mkWorld (mkCache VNone 0) 0 0 [] [] 0.

Definition dq : string := String (ascii_of_nat 34) EmptyString.

(** A 200 of the identity service carrying the access token [t]. *)
Definition token_response (t : string) : Response :=
  mkResponse 200
    ("{" ++ dq ++ "access_token" ++ dq ++ ": " ++ dq ++ t ++ dq ++ "}")
    (Some (VDict [("access_token", VStr t)])).

Definition unauthorized : Response := mkResponse 401 "Unauthorized" None.

Definition server_error : Response := mkResponse 500 "Internal Server Error" None.

Definition hello : ChatMessage := mkChatMessage "hello" false.

(** The identity service is unreachable; the deployment is never reached. *)
Definition env_identity_down : Env :=
  mkEnv (fun n => 1000 + Z.of_nat n)
        (fun _ => Fails ConnectionError)
        (fun _ _ => Responds unauthorized).

(** The identity service answers every request with a 500. *)
Definition env_identity_500 : Env :=
  mkEnv (fun n => 1000 + Z.of_nat n)
        (fun _ => Responds server_error)
        (fun _ _ => Responds unauthorized).

(** The identity service grants a token once and times out afterwards;
    the deployment rejects the token. *)
Definition env_refresh_fails : Env :=
  mkEnv (fun n => 1000 + Z.of_nat n)
        (fun n => match n with O => Responds (token_response "t1") | S _ => Fails Timeout end)
        (fun _ _ => Responds unauthorized).

(** The identity service grants an empty access token. *)
Definition env_empty_token : Env :=
  mkEnv (fun n => 1000 + Z.of_nat n)
        (fun _ => Responds (token_response ""))
        (fun _ _ => Responds unauthorized).

(** The identity service times out twice and then grants a token. *)
Definition env_third_time : Env :=
  mkEnv (fun n => 1000 + Z.of_nat n)
        (fun n => match n with
                  | O | S O => Fails Timeout
                  | _ => Responds (token_response "t3")
                  end)
        (fun _ _ => Responds unauthorized).

(** The identity service grants tokens; the deployment rejects all of them. *)
Definition env_always_401 : Env :=
  mkEnv (fun n => 1000 + Z.of_nat n)
        (fun n => Responds (token_response "t"))
        (fun _ _ => Responds unauthorized).

(** The identity service grants tokens; the deployment cannot be reached. *)
Definition env_inference_down : Env :=
  mkEnv (fun n => 1000 + Z.of_nat n)
        (fun n => Responds (token_response "t"))
        (fun _ _ => Fails Timeout).

(** A 401 whose body is JSON, but an empty list instead of an object. *)
Definition unauthorized_list_body : Response := mkResponse 401 "[]" (Some (VList [])).

(** As [env_always_401], with the list body. *)
Definition env_always_401_list_body : Env :=
  mkEnv (fun n => 1000 + Z.of_nat n)
        (fun n => Responds (token_response "t"))
        (fun _ _ => Responds unauthorized_list_body).

(** A body in the expected shape whose message content is [content]. *)
Definition body_with_content (content : value) : value :=
  VDict [("choices", VList [VDict [("message", VDict [("content", content)])]])].

(** A world whose cache holds the token ["tok"] until time 2000. *)
Definition world_with_token : World :=
  mkWorld (mkCache (VStr "tok") 2000) 0 0 [] [] 0.

Definition is_dict (v : value) : bool :=
  match v with
  | VDict _ => true
  | _ => false
  end.

Definition is_list (v : value) : bool :=
  match v with
  | VList _ => true
  | _ => false
  end.

Definition placeholder : value := VStr "Received response but couldn't parse it".

(** The error taxonomy, as the handlers signal it. *)
Definition BadRequest : exn := HTTPException 400 "Message cannot be empty".
Definition AuthFailed : exn := HTTPException 401 "Authentication failed".
Definition UpstreamError (detail : string) : exn := HTTPException 502 detail.
Definition ServiceUnavailable : exn := HTTPException 503 "Service unavailable".
Definition InternalError : exn := HTTPException 500 "Internal server error".

(** The two failures of the credential acquirer. *)
Definition AuthServiceUnavailable : exn :=
  HTTPException 503 "Authentication service unavailable".
Definition AcquirerAuthFailed : exn := HTTPException 500 "Authentication failed".

(** The status category of an error surfaced to the caller. *)
Definition category (e : exn) : option Z :=
  match e with
  | HTTPException code _ => Some code
  | _ => None
  end.

(** The cache holds a token usable at time [now]. *)
Definition cache_fresh (c : Cache) (now : Z) : bool :=
  truthy (token c) && (now <? expires_at c).

(** What the identity service grants with an answer: the access token of
    a response that is no HTTP error and whose body is a JSON object with
    an ["access_token"]; nothing otherwise. *)
Definition identity_grants (o : PostOutcome) : option value :=
  match o with
  | Fails _ => None
  | Responds r =>
      if (400 <=? status_code r) && (status_code r <? 600) then None
      else match json r with
           | None => None
           | Some token_data =>
               match getitem_key token_data "access_token" with
               | Ret t => Some t
               | Raise _ => None
               end
           end
  end.

(** The request [chat] sends for [msg] with the token [tok]. *)
Definition chat_request (lib : Libs) (msg : ChatMessage) (tok : value) : Request :=
  mkRequest (if stream msg then STREAMING_ENDPOINT else REGULAR_ENDPOINT)
            (get_watsonx_payload (message msg))
            (bearer lib tok).

(** What lines 202-217 make of the response finally received: the response
    itself, or the 502 built from a 4xx or 5xx. *)
Definition settle (lib : Libs) (r : Response) : Result Response :=
  match raise_for_status r with
  | Ret _ => Ret r
  | Raise _ =>
      match error_detail lib r with
      | Ret d => Raise (UpstreamError d)
      | Raise e => Raise e
      end
  end.

(** What lines 226-242 make of a response that passed: the chat result, or
    the 502 for a body that is not JSON or a reply that is not a string. *)
Definition parse_response (lib : Libs) (r : Response) : Result ChatResponse.t :=
  match json r with
  | None => Raise (UpstreamError "Invalid response from service")
  | Some data =>
      match format_response lib data with
      | Ret v =>
          match validate_str lib v with
          | Some s => Ret (ChatResponse.mk s "success")
          | None => Raise (UpstreamError "Invalid response from service")
          end
      | Raise e => Raise e
      end
  end.

(** What the outer handler of [chat] makes of an exception. *)
Definition at_boundary (e : exn) : exn :=
  match e with
  | HTTPException _ _ => e
  | _ => InternalError
  end.

(** The errors [chat] lets reach its caller. *)
Definition surfaced (e : exn) : Prop :=
  e = BadRequest \/ e = AuthFailed \/ (exists d, e = UpstreamError d)
  \/ e = ServiceUnavailable \/ e = InternalError
  \/ e = AuthServiceUnavailable \/ e = AcquirerAuthFailed.

(** The time slept, all waits together. *)
Definition total_wait (l : list Z) : Z := fold_right Z.add 0 l.

(** What [chat] sends for [msg], whatever the token. *)
Definition request_for (msg : ChatMessage) (rq : Request) : Prop :=
  url rq = (if stream msg then STREAMING_ENDPOINT else REGULAR_ENDPOINT)
  /\ body rq = get_watsonx_payload (message msg).

(** A 200 of the deployment whose first choice says [reply]. *)
Definition reply_response (reply : string) : Response :=
  mkResponse 200 "{...}" (Some (body_with_content (VStr reply))).

(** A 403 of the deployment with an error list. *)
Definition forbidden : Response :=
  mkResponse 403 "{...}"
    (Some (VDict [("errors", VList [VDict [("message", VStr "no access")]])])).

(** The identity service grants tokens; the deployment answers. *)
Definition env_ok : Env :=
  mkEnv (fun n => 1000 + Z.of_nat n)
        (fun n => Responds (token_response "t"))
        (fun _ _ => Responds (reply_response "Hi there")).

(** The identity service grants tokens; the deployment refuses with a 403. *)
Definition env_forbidden : Env :=
  mkEnv (fun n => 1000 + Z.of_nat n)
        (fun n => Responds (token_response "t"))
        (fun _ _ => Responds forbidden).

(** Runs the end of the [try] block of [dispatch] on the response [r]. *)
Ltac settle_response r :=
  unfold lift, ret, raise, settle, raise_for_status;
  destruct ((400 <=? status_code r) && (status_code r <? 600)); [ | reflexivity ];
  destruct (error_detail _ r); reflexivity.

(** * Properties *)

Section Properties.

Variable lib : Libs.
Variable env : Env.

(** ** Response normalizer *)

Lemma format_response_of_try (data : value) :
  format_response lib data =
  match format_response_try lib data with
  | Ret v => Ret v
  | Raise _ => Ret placeholder
  end.
Proof. reflexivity. Qed.

(** [format_response] never raises: whatever the [try] block does, the
    function returns. *)
Lemma format_response_never_raises (data : value) :
  exists v, format_response lib data = Ret v.
Proof.
  rewrite format_response_of_try.
  destruct (format_response_try lib data) as [v | e]; eauto.
Qed.

(** C6 (amended).  The three well-formed examples evaluate as stated.  For
    other inputs: [None], a boolean or a number yields the placeholder; a
    list or a string yields the placeholder exactly when it contains
    ["choices"] and its own string rendering otherwise; a dict whose
    truthy ["choices"] is not a list, whose first choice is not a dict, or
    whose ["message"] is not a dict yields the placeholder. *)
Theorem format_response_cases :
  format_response lib
    (VDict [("choices", VList [VDict [("message", VDict [("content", VStr "hi")])]])])
  = Ret (VStr "hi")
  /\ format_response lib (VDict [("choices", VList [])])
     = Ret (VStr (py_str lib (VDict [("choices", VList [])])))
  /\ format_response lib (VDict [("choices", VList [VDict [("message", VDict [])]])])
     = Ret (VStr "No response content")
  /\ format_response lib VNone = Ret placeholder
  /\ (forall b, format_response lib (VBool b) = Ret placeholder)
  /\ (forall z, format_response lib (VInt z) = Ret placeholder)
  /\ (forall f, format_response lib (VFloat f) = Ret placeholder)
  /\ (forall l,
        format_response lib (VList l) =
        if existsb (fun x => match x with VStr s => String.eqb s "choices" | _ => false end) l
        then Ret placeholder
        else Ret (VStr (py_str lib (VList l))))
  /\ (forall s,
        format_response lib (VStr s) =
        if is_substring "choices" s then Ret placeholder else Ret (VStr s))
  /\ (forall d choices,
        dict_lookup d "choices" = Some choices ->
        truthy choices = true ->
        is_list choices = false ->
        format_response lib (VDict d) = Ret placeholder)
  /\ (forall d first rest,
        dict_lookup d "choices" = Some (VList (first :: rest)) ->
        is_dict first = false ->
        format_response lib (VDict d) = Ret placeholder)
  /\ (forall d fields rest msg,
        dict_lookup d "choices" = Some (VList (VDict fields :: rest)) ->
        dict_lookup fields "message" = Some msg ->
        is_dict msg = false ->
        format_response lib (VDict d) = Ret placeholder).
Proof.
  repeat split; try reflexivity.
  - intros l. unfold format_response, format_response_try. simpl.
    destruct (existsb _ l); reflexivity.
  - intros s. unfold format_response, format_response_try. simpl.
    destruct (is_substring "choices" s); reflexivity.
  - intros d choices Hd Ht Hl.
    unfold format_response, format_response_try. simpl. rewrite Hd. simpl. rewrite Ht.
    destruct choices as [ | b | z | f | s | l | d']; simpl in *; try discriminate; try reflexivity.
    + destruct s; [discriminate | reflexivity].
  - intros d first rest Hd Hf.
    unfold format_response, format_response_try. simpl. rewrite Hd. simpl.
    destruct first; simpl in *; try discriminate; reflexivity.
  - intros d fields rest msg Hd Hm Hf.
    unfold format_response, format_response_try. simpl. rewrite Hd. simpl. rewrite Hm.
    destruct msg; simpl in *; try discriminate; reflexivity.
Qed.

(** C7.  On a body in the expected shape the function returns the message
    content as it is, whatever it is: for a content that is [None] (a JSON
    null) or the integer 5 the value returned is not a string. *)
Theorem format_response_non_string_content :
  (forall content, format_response lib (body_with_content content) = Ret content)
  /\ format_response lib (body_with_content VNone) = Ret VNone
  /\ format_response lib (body_with_content (VInt 5)) = Ret (VInt 5).
Proof. repeat split. Qed.

(** ** Request translator *)

(** C8.  For a message that is not blank, the payload has the three keys
    [messages], [project_id] and [parameters]; [messages] is a list of one
    turn whose role is ["user"] and whose content is the message itself;
    the project identifier and the generation parameters are the fixed
    ones; and equal messages give equal payloads. *)
Theorem get_watsonx_payload_shape (message : string) :
  strip message <> "" ->
  (exists d turn,
     get_watsonx_payload message = VDict d
     /\ map fst d = ["messages"; "project_id"; "parameters"]
     /\ dict_lookup d "messages" = Some (VList [VDict turn])
     /\ map fst turn = ["content"; "role"]
     /\ dict_lookup turn "role" = Some (VStr "user")
     /\ dict_lookup turn "content" = Some (VStr message)
     /\ dict_lookup d "project_id" = Some (VStr (PROJECT_ID CONFIG))
     /\ dict_lookup d "parameters" = Some generation_parameters)
  /\ generation_parameters =
     VDict [ ("max_new_tokens", VInt 200); ("temperature", VFloat 0.7%float);
             ("top_p", VFloat 0.9%float); ("repetition_penalty", VFloat 1.1%float) ]
  /\ (forall message', message' = message ->
        get_watsonx_payload message' = get_watsonx_payload message).
Proof.
  intros _. split; [ | split ].
  - eexists. eexists. split; [ reflexivity | ]. repeat split.
  - reflexivity.
  - intros message' ->. reflexivity.
Qed.

(** ** Token cache *)

Lemma cache_hit_eq (w : World) :
  cache_hit env w =
  if truthy (token (token_cache w))
  then (Ret (clock env (time_reads w) <? expires_at (token_cache w)), tick w)
  else (Ret false, w).
Proof.
  unfold cache_hit, bind, get_cache, time_time, ret.
  destruct (truthy (token (token_cache w))); reflexivity.
Qed.

(** ** One attempt of the credential acquirer *)

(** The world once the guard of line 70 has been evaluated. *)
Lemma cache_hit_world (w : World) :
  snd (cache_hit env w) = if truthy (token (token_cache w)) then tick w else w.
Proof. rewrite cache_hit_eq. destruct (truthy (token (token_cache w))); reflexivity. Qed.

Lemma attempt_hit (w : World) :
  fst (cache_hit env w) = Ret true ->
  get_ibm_token_attempt lib env w = (Ret (token (token_cache w)), tick w).
Proof.
  unfold get_ibm_token_attempt, try_except, bind. rewrite cache_hit_eq.
  destruct (truthy (token (token_cache w))); simpl; [ | discriminate ].
  intros H. injection H as ->. reflexivity.
Qed.

(** What an attempt that misses the cache does, by the answer of the
    identity service. *)
Lemma attempt_miss (w : World) :
  fst (cache_hit env w) = Ret false ->
  let w1 := snd (cache_hit env w) in
  get_ibm_token_attempt lib env w =
  match identity env (token_posts w1) with
  | Fails _ =>
      (Raise (HTTPException 503 "Authentication service unavailable"), count_token_post w1)
  | Responds r =>
      if (400 <=? status_code r) && (status_code r <? 600)
      then (Raise (HTTPException 503 "Authentication service unavailable"),
            count_token_post w1)
      else
        match json r with
        | None =>
            (Raise (if json_error_is_request_exception lib
                    then HTTPException 503 "Authentication service unavailable"
                    else HTTPException 500 "Authentication failed"),
             count_token_post w1)
        | Some token_data =>
            match getitem_key token_data "access_token" with
            | Raise _ =>
                (Raise (HTTPException 500 "Authentication failed"), count_token_post w1)
            | Ret t =>
                (Ret t,
                 tick (with_cache (mkCache t (clock env (time_reads w1) + 3600))
                                  (count_token_post w1)))
            end
        end
  end.
Proof.
  intros Hmiss. cbv zeta.
  unfold get_ibm_token_attempt, try_except, bind.
  destruct (cache_hit env w) as [[hit | e] w1] eqn:Hc; simpl in *; [ | discriminate ].
  injection Hmiss as ->.
  unfold requests_post_token.
  destruct (identity env (token_posts w1)) as [k | r]; [ reflexivity | ].
  unfold lift, raise_for_status.
  destruct ((400 <=? status_code r) && (status_code r <? 600)); [ reflexivity | ].
  unfold response_json.
  destruct (json r) as [token_data | ]; simpl.
  - destruct (getitem_key token_data "access_token") as [t | e] eqn:Hk.
    + reflexivity.
    + destruct token_data; simpl in Hk; try (injection Hk as <-; reflexivity).
      destruct (dict_lookup d "access_token"); [ discriminate | ].
      injection Hk as <-. reflexivity.
  - destruct (json_error_is_request_exception lib); reflexivity.
Qed.

(** C3 (amended).  An attempt that misses the cache raises
    [AuthServiceUnavailable] on a network-level failure and on a 4xx or
    5xx answer of the identity service; it raises the acquirer's
    [AuthFailed] when the body of another answer is JSON without a usable
    ["access_token"]; for a body that is not JSON it raises one of the two,
    by the version of [requests]; and on an answer whose JSON body has an
    ["access_token"] it stores that token with a lifetime of 3600 and
    returns it. *)
Theorem get_ibm_token_attempt_outcomes (w : World) :
  fst (cache_hit env w) = Ret false ->
  let w1 := snd (cache_hit env w) in
  let outcome := identity env (token_posts w1) in
  let result := get_ibm_token_attempt lib env w in
  (forall k, outcome = Fails k -> fst result = Raise AuthServiceUnavailable)
  /\ (forall r, outcome = Responds r -> 400 <= status_code r < 600 ->
        fst result = Raise AuthServiceUnavailable)
  /\ (forall r token_data e,
        outcome = Responds r -> ~ (400 <= status_code r < 600) ->
        json r = Some token_data ->
        getitem_key token_data "access_token" = Raise e ->
        fst result = Raise AcquirerAuthFailed)
  /\ (forall r,
        outcome = Responds r -> ~ (400 <= status_code r < 600) ->
        json r = None ->
        fst result = Raise (if json_error_is_request_exception lib
                            then AuthServiceUnavailable else AcquirerAuthFailed))
  /\ (forall r token_data t,
        outcome = Responds r -> ~ (400 <= status_code r < 600) ->
        json r = Some token_data ->
        getitem_key token_data "access_token" = Ret t ->
        fst result = Ret t
        /\ token_cache (snd result) = mkCache t (clock env (time_reads w1) + 3600)).
Proof.
  intros Hmiss. cbv zeta. rewrite (attempt_miss w Hmiss). cbv zeta.
  assert (Hrange : forall r, 400 <= status_code r < 600 <->
                     (400 <=? status_code r) && (status_code r <? 600) = true).
  { intros r. rewrite andb_true_iff, Z.leb_le, Z.ltb_lt. tauto. }
  split; [ | split; [ | split; [ | split ] ] ].
  - intros k ->. reflexivity.
  - intros r -> Hr. apply Hrange in Hr. rewrite Hr. reflexivity.
  - intros r token_data e -> Hr Hj Hk.
    destruct ((400 <=? status_code r) && (status_code r <? 600)) eqn:Hb;
      [ exfalso; apply Hr, Hrange, Hb | ].
    rewrite Hj, Hk. reflexivity.
  - intros r -> Hr Hj.
    destruct ((400 <=? status_code r) && (status_code r <? 600)) eqn:Hb;
      [ exfalso; apply Hr, Hrange, Hb | ].
    rewrite Hj. simpl. destruct (json_error_is_request_exception lib); reflexivity.
  - intros r token_data t -> Hr Hj Hk.
    destruct ((400 <=? status_code r) && (status_code r <? 600)) eqn:Hb;
      [ exfalso; apply Hr, Hrange, Hb | ].
    rewrite Hj, Hk. split; reflexivity.
Qed.

Lemma cache_hit_cases (w : World) :
  fst (cache_hit env w) = Ret true \/ fst (cache_hit env w) = Ret false.
Proof.
  rewrite cache_hit_eq. destruct (truthy (token (token_cache w))); simpl; [ | now right ].
  destruct (clock env (time_reads w) <? expires_at (token_cache w)); [ now left | now right ].
Qed.

Lemma cache_hit_fresh (w : World) :
  fst (cache_hit env w) = Ret (cache_fresh (token_cache w) (clock env (time_reads w))).
Proof.
  rewrite cache_hit_eq. unfold cache_fresh.
  destruct (truthy (token (token_cache w))); reflexivity.
Qed.

(** What the guard leaves unchanged. *)
Lemma cache_hit_frame (w : World) :
  let w1 := snd (cache_hit env w) in
  token_cache w1 = token_cache w /\ token_posts w1 = token_posts w
  /\ sent w1 = sent w /\ slept w1 = slept w /\ attempt_number w1 = attempt_number w.
Proof.
  cbv zeta. rewrite cache_hit_world.
  destruct (truthy (token (token_cache w))); repeat split.
Qed.

(** With the identity service's answer in terms of [identity_grants]. *)
Lemma attempt_miss_grants (w : World) :
  fst (cache_hit env w) = Ret false ->
  let w1 := snd (cache_hit env w) in
  match identity_grants (identity env (token_posts w)) with
  | Some t =>
      get_ibm_token_attempt lib env w =
      (Ret t,
       tick (with_cache (mkCache t (clock env (time_reads w1) + 3600)) (count_token_post w1)))
  | None =>
      exists e,
        get_ibm_token_attempt lib env w = (Raise e, count_token_post w1)
        /\ (e = AuthServiceUnavailable \/ e = AcquirerAuthFailed)
  end.
Proof.
  intros Hmiss. cbv zeta. rewrite (attempt_miss w Hmiss). cbv zeta.
  destruct (cache_hit_frame w) as (_ & -> & _).
  unfold identity_grants.
  destruct (identity env (token_posts w)) as [k | r].
  - eexists. split; [ reflexivity | now left ].
  - destruct ((400 <=? status_code r) && (status_code r <? 600)).
    + eexists. split; [ reflexivity | now left ].
    + destruct (json r) as [token_data | ].
      * destruct (getitem_key token_data "access_token").
        -- reflexivity.
        -- eexists. split; [ reflexivity | now right ].
      * eexists. split; [ reflexivity | ].
        destruct (json_error_is_request_exception lib); [ now left | now right ].
Qed.

(** An attempt changes neither the requests sent to the deployment, nor
    the waits slept, nor the attempt counter, and contacts the identity
    service at most once. *)
Lemma attempt_frame (w : World) :
  let w' := snd (get_ibm_token_attempt lib env w) in
  sent w' = sent w /\ slept w' = slept w /\ attempt_number w' = attempt_number w
  /\ (token_posts w <= token_posts w' <= S (token_posts w))%nat.
Proof.
  cbv zeta. destruct (cache_hit_frame w) as (_ & Hp & Hs & Hsl & Ha).
  destruct (cache_hit_cases w) as [Hhit | Hmiss].
  - rewrite (attempt_hit w Hhit). simpl. repeat split; lia.
  - pose proof (attempt_miss_grants w Hmiss) as H. cbv zeta in H.
    destruct (identity_grants (identity env (token_posts w))).
    + rewrite H. simpl. rewrite Hp, Hs, Hsl, Ha. repeat split; lia.
    + destruct H as (e & -> & _). simpl. rewrite Hp, Hs, Hsl, Ha. repeat split; lia.
Qed.

(** An attempt that raises has missed the cache, has contacted the
    identity service once, has left the cache as it was, and raises one of
    the acquirer's two errors. *)
Lemma attempt_raises (w w' : World) (e : exn) :
  get_ibm_token_attempt lib env w = (Raise e, w') ->
  fst (cache_hit env w) = Ret false
  /\ identity_grants (identity env (token_posts w)) = None
  /\ token_cache w' = token_cache w
  /\ token_posts w' = S (token_posts w)
  /\ (e = AuthServiceUnavailable \/ e = AcquirerAuthFailed).
Proof.
  intros H. destruct (cache_hit_frame w) as (Hc & Hp & _).
  destruct (cache_hit_cases w) as [Hhit | Hmiss].
  - rewrite (attempt_hit w Hhit) in H. discriminate.
  - pose proof (attempt_miss_grants w Hmiss) as G. cbv zeta in G.
    destruct (identity_grants (identity env (token_posts w))).
    + rewrite G in H. discriminate.
    + destruct G as (e' & G & He). rewrite G in H. injection H as <- <-.
      simpl. rewrite Hc, Hp. repeat split; assumption.
Qed.

(** C5.  Lines 70-71 are the read of the cache: the guard of line 70
    decides whether the cached token is served (line 71 returns it) or not
    (the attempt goes on to the identity service).  A token is stored in
    the cache when it is truthy; an absent or empty one is no token.  With
    [now] the clock reading of the guard: no token is served when
    [expires_at <= now]; the stored token is served, as the result of the
    attempt and without any request, when [expires_at > now]; no token is
    served when none is stored; the guard leaves the cache as it is; after
    the token was cleared (line 192) no token is served; and whenever no
    token is served the attempt contacts the identity service. *)
Theorem cache_hit_spec (w : World) :
  let c := token_cache w in
  let now := clock env (time_reads w) in
  (expires_at c <= now -> fst (cache_hit env w) = Ret false)
  /\ (expires_at c > now -> truthy (token c) = true ->
      fst (cache_hit env w) = Ret true
      /\ get_ibm_token_attempt lib env w = (Ret (token c), tick w))
  /\ (truthy (token c) = false -> fst (cache_hit env w) = Ret false)
  /\ token_cache (snd (cache_hit env w)) = c
  /\ fst (cache_hit env (snd (invalidate w))) = Ret false
  /\ (fst (cache_hit env w) = Ret false ->
      token_posts (snd (get_ibm_token_attempt lib env w)) = S (token_posts w)).
Proof.
  cbv zeta. split; [ | split; [ | split; [ | split; [ | split ] ] ] ].
  - intros Hle. rewrite cache_hit_eq.
    destruct (truthy (token (token_cache w))); [ | reflexivity ].
    simpl. destruct (Z.ltb_spec (clock env (time_reads w)) (expires_at (token_cache w)));
      [ lia | reflexivity ].
  - intros Hgt Ht.
    assert (Hhit : fst (cache_hit env w) = Ret true).
    { rewrite cache_hit_eq, Ht. simpl.
      destruct (Z.ltb_spec (clock env (time_reads w)) (expires_at (token_cache w)));
        [ reflexivity | lia ]. }
    split; [ exact Hhit | exact (attempt_hit w Hhit) ].
  - intros Ht. rewrite cache_hit_eq, Ht. reflexivity.
  - apply (cache_hit_frame w).
  - reflexivity.
  - intros Hmiss. destruct (cache_hit_frame w) as (_ & Hp & _).
    pose proof (attempt_miss_grants w Hmiss) as G. cbv zeta in G.
    destruct (identity_grants (identity env (token_posts w))).
    + rewrite G. simpl. rewrite Hp. reflexivity.
    + destruct G as (e & -> & _). simpl. rewrite Hp. reflexivity.
Qed.

(** ** The retried credential acquirer *)

Lemma retrying_last {A} (wait : nat -> Z) (fn : M A) (w : World) :
  retrying 0 wait fn w = fn w.
Proof.
  unfold retrying, try_except, raise. destruct (fn w) as [[a | e] w']; reflexivity.
Qed.

Lemma retrying_more {A} (k : nat) (wait : nat -> Z) (fn : M A) (w : World) :
  retrying (S k) wait fn w =
  match fn w with
  | (Ret a, w') => (Ret a, w')
  | (Raise e, w') =>
      retrying k wait fn
        (with_attempt_number (S (attempt_number w'))
           (record_sleep (wait (attempt_number w')) w'))
  end.
Proof.
  simpl. unfold try_except. destruct (fn w) as [[a | e] w']; reflexivity.
Qed.

(** The decorated function, attempt by attempt. *)
Lemma get_ibm_token_unfold (w : World) :
  get_ibm_token lib env w =
  match get_ibm_token_attempt lib env (with_attempt_number 1 w) with
  | (Ret v, w1) => (Ret v, w1)
  | (Raise _, w1) =>
      match get_ibm_token_attempt lib env (backoff w1) with
      | (Ret v, w2) => (Ret v, w2)
      | (Raise _, w2) => get_ibm_token_attempt lib env (backoff w2)
      end
  end.
Proof.
  unfold get_ibm_token, retry, bind, set_attempt_number.
  change (3 - 1)%nat with 2%nat. cbv beta iota.
  rewrite retrying_more.
  destruct (get_ibm_token_attempt lib env (with_attempt_number 1 w)) as [[v | e1] w1];
    [ reflexivity | ].
  rewrite retrying_more. fold (backoff w1).
  destruct (get_ibm_token_attempt lib env (backoff w1)) as [[v | e2] w2]; [ reflexivity | ].
  rewrite retrying_last. reflexivity.
Qed.

Lemma wait_first : wait_exponential 1 4 10 1 = 4.
Proof. reflexivity. Qed.

Lemma wait_second : wait_exponential 1 4 10 2 = 4.
Proof. reflexivity. Qed.

(** Every run of the decorated function, with its attempts spelled out:
    the run is one of the four, by the attempt that returns, if any. *)
Lemma get_ibm_token_runs (w : World) :
  let w0 := with_attempt_number 1 w in
  (exists v w1,
     get_ibm_token_attempt lib env w0 = (Ret v, w1)
     /\ get_ibm_token lib env w = (Ret v, w1))
  \/ (exists e1 w1 v w2,
        get_ibm_token_attempt lib env w0 = (Raise e1, w1)
        /\ get_ibm_token_attempt lib env (backoff w1) = (Ret v, w2)
        /\ get_ibm_token lib env w = (Ret v, w2))
  \/ (exists e1 w1 e2 w2 r w3,
        get_ibm_token_attempt lib env w0 = (Raise e1, w1)
        /\ get_ibm_token_attempt lib env (backoff w1) = (Raise e2, w2)
        /\ get_ibm_token_attempt lib env (backoff w2) = (r, w3)
        /\ get_ibm_token lib env w = (r, w3)).
Proof.
  cbv zeta. rewrite get_ibm_token_unfold.
  destruct (get_ibm_token_attempt lib env (with_attempt_number 1 w)) as [[v | e1] w1].
  - left. eauto.
  - destruct (get_ibm_token_attempt lib env (backoff w1)) as [[v | e2] w2] eqn:H2.
    + right. left. exists e1, w1, v, w2. auto.
    + right. right.
      destruct (get_ibm_token_attempt lib env (backoff w2)) as [r w3] eqn:H3.
      exists e1, w1, e2, w2, r, w3. auto.
Qed.

Lemma attempt_frame_eq (w w' : World) (r : Result value) :
  get_ibm_token_attempt lib env w = (r, w') ->
  sent w' = sent w /\ slept w' = slept w /\ attempt_number w' = attempt_number w
  /\ (token_posts w <= token_posts w' <= S (token_posts w))%nat.
Proof.
  intros H. pose proof (attempt_frame w) as F. cbv zeta in F. rewrite H in F. exact F.
Qed.

(** The decorated function sends nothing to the deployment, makes between
    one and three attempts and contacts the identity service at most
    three times. *)
Lemma get_ibm_token_frame (w : World) :
  let w' := snd (get_ibm_token lib env w) in
  sent w' = sent w
  /\ (1 <= attempt_number w' <= 3)%nat
  /\ (token_posts w <= token_posts w' <= token_posts w + 3)%nat.
Proof.
  cbv zeta.
  destruct (get_ibm_token_runs w) as
    [ (v & w1 & H1 & ->)
    | [ (e1 & w1 & v & w2 & H1 & H2 & ->)
      | (e1 & w1 & e2 & w2 & r & w3 & H1 & H2 & H3 & ->) ] ]; simpl.
  - apply attempt_frame_eq in H1. unfold with_attempt_number in H1. simpl in H1.
    destruct H1 as (-> & _ & -> & ?). split; [ reflexivity | lia ].
  - apply attempt_frame_eq in H1, H2. unfold backoff, with_attempt_number, record_sleep in *.
    simpl in *.
    destruct H1 as (Hs1 & _ & Ha1 & ?). destruct H2 as (-> & _ & -> & ?).
    rewrite Hs1, Ha1. split; [ reflexivity | lia ].
  - apply attempt_frame_eq in H1, H2, H3.
    unfold backoff, with_attempt_number, record_sleep in *. simpl in *.
    destruct H1 as (Hs1 & _ & Ha1 & ?). destruct H2 as (Hs2 & _ & Ha2 & ?).
    destruct H3 as (-> & _ & -> & ?).
    rewrite Hs2, Hs1, Ha2, Ha1. split; [ reflexivity | lia ].
Qed.

(** Whatever the decorated function raises is one of the acquirer's two
    errors. *)
Lemma get_ibm_token_raises (w w' : World) (e : exn) :
  get_ibm_token lib env w = (Raise e, w') ->
  e = AuthServiceUnavailable \/ e = AcquirerAuthFailed.
Proof.
  intros H.
  destruct (get_ibm_token_runs w) as
    [ (v & w1 & H1 & G)
    | [ (e1 & w1 & v & w2 & H1 & H2 & G)
      | (e1 & w1 & e2 & w2 & r & w3 & H1 & H2 & H3 & G) ] ];
    rewrite G in H; try discriminate.
  injection H as -> ->. apply attempt_raises in H3. tauto.
Qed.

Lemma attempt_fails_when (w : World) :
  cache_fresh (token_cache w) (clock env (time_reads w)) = false ->
  identity_grants (identity env (token_posts w)) = None ->
  exists e w',
    get_ibm_token_attempt lib env w = (Raise e, w')
    /\ token_cache w' = token_cache w
    /\ token_posts w' = S (token_posts w).
Proof.
  intros Hstale Hnone.
  assert (Hmiss : fst (cache_hit env w) = Ret false)
    by (rewrite cache_hit_fresh, Hstale; reflexivity).
  pose proof (attempt_miss_grants w Hmiss) as G. cbv zeta in G. rewrite Hnone in G.
  destruct G as (e & G & _). exists e. eexists. split; [ exact G | ].
  destruct (cache_hit_frame w) as (Hc & Hp & _). simpl. rewrite Hc, Hp. split; reflexivity.
Qed.

Lemma attempt_succeeds_when (w : World) (t : value) :
  cache_fresh (token_cache w) (clock env (time_reads w)) = false ->
  identity_grants (identity env (token_posts w)) = Some t ->
  exists w',
    get_ibm_token_attempt lib env w = (Ret t, w')
    /\ token (token_cache w') = t
    /\ token_posts w' = S (token_posts w).
Proof.
  intros Hstale Hsome.
  assert (Hmiss : fst (cache_hit env w) = Ret false)
    by (rewrite cache_hit_fresh, Hstale; reflexivity).
  pose proof (attempt_miss_grants w Hmiss) as G. cbv zeta in G. rewrite Hsome in G.
  eexists. split; [ exact G | ].
  destruct (cache_hit_frame w) as (_ & Hp & _). simpl. rewrite Hp. split; reflexivity.
Qed.

(** C2.  A call makes at least one and at most three attempts, hence at
    most three requests to the identity service.  An attempt that returns
    ends the call with its result.  An attempt that raises is followed,
    after a wait of [wait_exponential 1 4 10] (4 after the first and after
    the second attempt), by the next attempt while fewer than three were
    made; the outcome of the third attempt, a raised exception included,
    is the outcome of the call as it is.  When no attempt finds a usable
    token in the cache, and the identity service grants nothing on the
    first two requests and the token [t] on the third, the call makes
    three attempts and returns [t]. *)
Theorem get_ibm_token_retry (w : World) :
  let w0 := with_attempt_number 1 w in
  let result := get_ibm_token lib env w in
  (1 <= attempt_number (snd result) <= 3)%nat
  /\ (token_posts (snd result) <= token_posts w + 3)%nat
  /\ (forall v w1,
        get_ibm_token_attempt lib env w0 = (Ret v, w1) ->
        result = (Ret v, w1) /\ attempt_number w1 = 1%nat /\ slept w1 = slept w)
  /\ (forall e1 w1 v w2,
        get_ibm_token_attempt lib env w0 = (Raise e1, w1) ->
        get_ibm_token_attempt lib env (backoff w1) = (Ret v, w2) ->
        result = (Ret v, w2) /\ attempt_number w2 = 2%nat /\ slept w2 = 4 :: slept w)
  /\ (forall e1 w1 e2 w2 r w3,
        get_ibm_token_attempt lib env w0 = (Raise e1, w1) ->
        get_ibm_token_attempt lib env (backoff w1) = (Raise e2, w2) ->
        get_ibm_token_attempt lib env (backoff w2) = (r, w3) ->
        result = (r, w3) /\ attempt_number w3 = 3%nat /\ slept w3 = 4 :: 4 :: slept w)
  /\ (forall t,
        (forall n, cache_fresh (token_cache w) (clock env n) = false) ->
        identity_grants (identity env (token_posts w)) = None ->
        identity_grants (identity env (S (token_posts w))) = None ->
        identity_grants (identity env (S (S (token_posts w)))) = Some t ->
        fst result = Ret t
        /\ attempt_number (snd result) = 3%nat
        /\ token_posts (snd result) = (token_posts w + 3)%nat
        /\ slept (snd result) = 4 :: 4 :: slept w
        /\ token (token_cache (snd result)) = t).
Proof.
  cbv zeta.
  assert (Hthird : forall e1 w1 e2 w2 r w3,
    get_ibm_token_attempt lib env (with_attempt_number 1 w) = (Raise e1, w1) ->
    get_ibm_token_attempt lib env (backoff w1) = (Raise e2, w2) ->
    get_ibm_token_attempt lib env (backoff w2) = (r, w3) ->
    get_ibm_token lib env w = (r, w3) /\ attempt_number w3 = 3%nat
    /\ slept w3 = 4 :: 4 :: slept w).
  { intros e1 w1 e2 w2 r w3 H1 H2 H3.
    rewrite get_ibm_token_unfold, H1, H2, H3. split; [ reflexivity | ].
    apply attempt_frame_eq in H1, H2, H3.
    unfold backoff, with_attempt_number, record_sleep in *. simpl in *.
    destruct H1 as (_ & Hl1 & Ha1 & _). destruct H2 as (_ & Hl2 & Ha2 & _).
    destruct H3 as (_ & -> & -> & _).
    rewrite Hl2, Hl1, Ha2, !Ha1. split; reflexivity. }
  pose proof (get_ibm_token_frame w) as F. cbv zeta in F. destruct F as (_ & Fa & Fp).
  split; [ exact Fa | ]. split; [ lia | ].
  split; [ | split; [ | split; [ exact Hthird | ] ] ].
  - intros v w1 H1. rewrite get_ibm_token_unfold, H1. split; [ reflexivity | ].
    apply attempt_frame_eq in H1. unfold with_attempt_number in H1. simpl in H1.
    destruct H1 as (_ & -> & -> & _). split; reflexivity.
  - intros e1 w1 v w2 H1 H2. rewrite get_ibm_token_unfold, H1, H2. split; [ reflexivity | ].
    apply attempt_frame_eq in H1, H2.
    unfold backoff, with_attempt_number, record_sleep in *. simpl in *.
    destruct H1 as (_ & Hl1 & Ha1 & _). destruct H2 as (_ & -> & -> & _).
    rewrite Ha1, Hl1. split; reflexivity.
  - intros t Hstale G1 G2 G3.
    destruct (attempt_fails_when (with_attempt_number 1 w)) as (e1 & w1 & H1 & Hc1 & Hp1);
      [ apply Hstale | exact G1 | ].
    simpl in Hc1, Hp1.
    destruct (attempt_fails_when (backoff w1)) as (e2 & w2 & H2 & Hc2 & Hp2);
      [ simpl; rewrite Hc1; apply Hstale | simpl; rewrite Hp1; exact G2 | ].
    simpl in Hc2, Hp2.
    destruct (attempt_succeeds_when (backoff w2) t) as (w3 & H3 & Ht3 & Hp3);
      [ simpl; rewrite Hc2, Hc1; apply Hstale | simpl; rewrite Hp2, Hp1; exact G3 | ].
    simpl in Hp3.
    destruct (Hthird _ _ _ _ _ _ H1 H2 H3) as (-> & Ha & Hl). simpl.
    rewrite Ha, Hl, Hp3, Hp2, Hp1, Ht3. repeat split. lia.
Qed.

(** ** Health reporter *)

Lemma health_check_eq (w : World) :
  health_check lib env w =
  match get_ibm_token lib env w with
  | (Ret tok, w') => (Ret (HealthResponse.mk "healthy" (truthy tok)), w')
  | (Raise _, w') => (Ret (HealthResponse.mk "unhealthy" false), w')
  end.
Proof.
  unfold health_check, try_except, bind, ret.
  destruct (get_ibm_token lib env w) as [[tok | e] w']; reflexivity.
Qed.

(** C9 (amended).  The health check never raises.  When the acquisition
    returns a token it reports ["healthy"] with a readiness that is the
    truth value of the token: true for a non-empty token, false for an
    empty one.  When the acquisition raises it reports ["unhealthy"] with
    readiness false. *)
Theorem health_check_total (w : World) :
  (exists h, fst (health_check lib env w) = Ret h)
  /\ (forall tok w',
        get_ibm_token lib env w = (Ret tok, w') ->
        health_check lib env w = (Ret (HealthResponse.mk "healthy" (truthy tok)), w'))
  /\ (forall tok w',
        get_ibm_token lib env w = (Ret tok, w') -> truthy tok = true ->
        health_check lib env w = (Ret (HealthResponse.mk "healthy" true), w'))
  /\ (forall e w',
        get_ibm_token lib env w = (Raise e, w') ->
        health_check lib env w = (Ret (HealthResponse.mk "unhealthy" false), w')).
Proof.
  rewrite health_check_eq. split; [ | split; [ | split ] ].
  - destruct (get_ibm_token lib env w) as [[tok | e] w']; simpl; eauto.
  - intros tok w' ->. reflexivity.
  - intros tok w' -> ->. reflexivity.
  - intros e w' ->. reflexivity.
Qed.

(** ** Chat gateway *)

(** The API call, outcome by outcome. *)
Lemma dispatch_eq (endpoint : string) (payload tok : value) (w : World) :
  let rq := mkRequest endpoint payload (bearer lib tok) in
  dispatch lib env endpoint payload tok w =
  match inference env (List.length (sent w)) rq with
  | Fails _ => (Raise ServiceUnavailable, record_sent rq w)
  | Responds r =>
      if status_code r =? 401 then
        match get_ibm_token lib env (snd (invalidate (record_sent rq w))) with
        | (Raise e, w3) => (Raise e, w3)
        | (Ret tok', w3) =>
            let rq' := mkRequest endpoint payload (bearer lib tok') in
            match inference env (List.length (sent w3)) rq' with
            | Fails _ => (Raise ServiceUnavailable, record_sent rq' w3)
            | Responds r' => (settle lib r', record_sent rq' w3)
            end
        end
      else (settle lib r, record_sent rq w)
  end.
Proof.
  cbv zeta. unfold dispatch, try_except, bind, requests_post.
  destruct (inference env (List.length (sent w)) (mkRequest endpoint payload (bearer lib tok)))
    as [k | r]; [ reflexivity | ].
  destruct (status_code r =? 401).
  - unfold invalidate, set_token. cbv beta iota. simpl snd.
    destruct (get_ibm_token lib env _) as [[tok' | e] w3] eqn:Hg.
    + destruct (inference env (List.length (sent w3))
                  (mkRequest endpoint payload (bearer lib tok'))) as [k | r'];
        [ reflexivity | ].
      settle_response r'.
    + apply get_ibm_token_raises in Hg. destruct Hg as [-> | ->]; reflexivity.
  - settle_response r.
Qed.

(** The handler, stage by stage. *)
Lemma chat_eq (msg : ChatMessage) (w : World) :
  chat lib env msg w =
  if str_nonempty (strip (message msg)) then
    match get_ibm_token lib env w with
    | (Raise _, w1) => (Raise AuthFailed, w1)
    | (Ret tok, w1) =>
        match dispatch lib env (if stream msg then STREAMING_ENDPOINT else REGULAR_ENDPOINT)
                (get_watsonx_payload (message msg)) tok w1 with
        | (Raise e, w2) => (Raise (at_boundary e), w2)
        | (Ret r, w2) =>
            match parse_response lib r with
            | Ret c => (Ret c, w2)
            | Raise e => (Raise (at_boundary e), w2)
            end
        end
    end
  else (Raise BadRequest, w).
Proof.
  unfold chat, try_except at 1, bind at 1.
  destruct (str_nonempty (strip (message msg))); [ | reflexivity ].
  unfold ret at 1. cbv beta iota.
  unfold bind at 1, try_except at 1.
  destruct (get_ibm_token lib env w) as [[tok | e] w1]; [ | reflexivity ].
  cbv beta iota zeta. unfold bind at 1.
  destruct (dispatch lib env _ _ tok w1) as [[r | e] w2]; [ | destruct e; reflexivity ].
  unfold try_except, bind, lift, parse_response, response_json.
  destruct (json r) as [data | ]; [ | reflexivity ].
  destruct (format_response_never_raises data) as (v & ->).
  unfold ChatResponse_new. destruct (validate_str lib v); reflexivity.
Qed.

Lemma at_boundary_acquirer (e : exn) :
  e = AuthServiceUnavailable \/ e = AcquirerAuthFailed -> at_boundary e = e.
Proof. intros [-> | ->]; reflexivity. Qed.

(** The handler once the first dispatch has been answered by a 401. *)
Lemma chat_after_401 (msg : ChatMessage) (w w1 : World) (tok : value) (r1 : Response) :
  str_nonempty (strip (message msg)) = true ->
  get_ibm_token lib env w = (Ret tok, w1) ->
  inference env (List.length (sent w1)) (chat_request lib msg tok) = Responds r1 ->
  status_code r1 = 401 ->
  chat lib env msg w =
  match get_ibm_token lib env (snd (invalidate (record_sent (chat_request lib msg tok) w1))) with
  | (Raise e, w3) => (Raise e, w3)
  | (Ret tok', w3) =>
      match inference env (List.length (sent w3)) (chat_request lib msg tok') with
      | Fails _ => (Raise ServiceUnavailable, record_sent (chat_request lib msg tok') w3)
      | Responds r2 =>
          (match settle lib r2 with
           | Raise e => Raise (at_boundary e)
           | Ret r =>
               match parse_response lib r with
               | Ret c => Ret c
               | Raise e => Raise (at_boundary e)
               end
           end,
           record_sent (chat_request lib msg tok') w3)
      end
  end.
Proof.
  intros Hmsg Htok H1 H401.
  rewrite chat_eq, Hmsg, Htok, dispatch_eq. cbv zeta.
  unfold chat_request in *. rewrite H1, H401. simpl (401 =? 401). cbv iota.
  match goal with
  | |- context [get_ibm_token lib env (snd ?x)] =>
      destruct (get_ibm_token lib env (snd x)) as [[tok' | e] w3] eqn:Hg
  end.
  - match goal with
    | |- context [inference env ?n ?rq] => destruct (inference env n rq) as [k | r2]
    end; [ reflexivity | ].
    destruct (settle lib r2) as [r | e]; [ | reflexivity ].
    destruct (parse_response lib r); reflexivity.
  - apply get_ibm_token_raises in Hg. rewrite (at_boundary_acquirer e Hg). reflexivity.
Qed.

Lemma get_ibm_token_sent (w w' : World) (r : Result value) :
  get_ibm_token lib env w = (r, w') -> sent w' = sent w.
Proof.
  intros H. pose proof (get_ibm_token_frame w) as F. cbv zeta in F. rewrite H in F.
  apply F.
Qed.

(** The detail of the 502 when the error body is empty or is not JSON. *)
Lemma error_detail_plain (r : Response) :
  text r = "" \/ json r = None -> exists d, error_detail lib r = Ret d.
Proof.
  intros [Ht | Hj]; unfold error_detail.
  - rewrite Ht. simpl. eauto.
  - destruct (str_nonempty (text r)); [ | eauto ].
    unfold response_json. rewrite Hj. simpl. eauto.
Qed.

(** The detail of the 502 when the error body has the conventional
    shape: an object whose ["errors"] is a list starting with an object. *)
Lemma error_detail_conventional (r : Response) (d first : list (string * value))
      (rest : list value) :
  json r = Some (VDict d) ->
  dict_lookup d "errors" = Some (VList (VDict first :: rest)) ->
  exists detail, error_detail lib r = Ret detail.
Proof.
  intros Hj He. unfold error_detail.
  destruct (str_nonempty (text r)); [ | eauto ].
  unfold response_json. rewrite Hj. simpl. rewrite He. simpl. eauto.
Qed.

(** C1 (amended).  When the first dispatch is answered by a 401, the
    handler clears the cached token and calls the acquirer once.  If that
    call raises, its exception is the outcome and nothing is sent again.
    If it returns a token, the request is sent once more with that token
    and never a third time: the requests sent are exactly the first one
    and the repeated one.  If the second answer is a 401 as well, and the
    detail of its body can be built (as it can for an empty body and for a
    body that is not JSON), the outcome is [UpstreamError]; if the second
    answer is a 200 with a JSON body from which a reply string is
    extracted, the outcome is a success. *)
Theorem chat_auth_retry (msg : ChatMessage) (w w1 : World) (tok : value) (r1 : Response) :
  str_nonempty (strip (message msg)) = true ->
  get_ibm_token lib env w = (Ret tok, w1) ->
  inference env (List.length (sent w1)) (chat_request lib msg tok) = Responds r1 ->
  status_code r1 = 401 ->
  let rq := chat_request lib msg tok in
  let w2 := snd (invalidate (record_sent rq w1)) in
  token (token_cache w2) = VNone
  /\ (forall e w3,
        get_ibm_token lib env w2 = (Raise e, w3) ->
        chat lib env msg w = (Raise e, w3) /\ sent w3 = rq :: sent w)
  /\ (forall tok' w3,
        get_ibm_token lib env w2 = (Ret tok', w3) ->
        let rq' := chat_request lib msg tok' in
        snd (chat lib env msg w) = record_sent rq' w3
        /\ sent (snd (chat lib env msg w)) = rq' :: rq :: sent w
        /\ (forall r2 d,
              inference env (List.length (sent w3)) rq' = Responds r2 ->
              status_code r2 = 401 ->
              error_detail lib r2 = Ret d ->
              fst (chat lib env msg w) = Raise (UpstreamError d))
        /\ (forall r2,
              inference env (List.length (sent w3)) rq' = Responds r2 ->
              status_code r2 = 401 ->
              text r2 = "" \/ json r2 = None ->
              exists d, fst (chat lib env msg w) = Raise (UpstreamError d))
        /\ (forall r2 data s,
              inference env (List.length (sent w3)) rq' = Responds r2 ->
              status_code r2 = 200 ->
              json r2 = Some data ->
              format_response lib data = Ret (VStr s) ->
              validate_str lib (VStr s) = Some s ->
              fst (chat lib env msg w) = Ret (ChatResponse.mk s "success"))).
Proof.
  intros Hmsg Htok H1 H401. cbv zeta.
  pose proof (chat_after_401 msg w w1 tok r1 Hmsg Htok H1 H401) as Hchat.
  pose proof (get_ibm_token_sent _ _ _ Htok) as Hs1.
  split; [ reflexivity | ]. split.
  - intros e w3 Hg. rewrite Hg in Hchat. split; [ exact Hchat | ].
    apply get_ibm_token_sent in Hg. rewrite Hg. simpl. rewrite Hs1. reflexivity.
  - intros tok' w3 Hg. rewrite Hg in Hchat.
    pose proof (get_ibm_token_sent _ _ _ Hg) as Hs3. simpl in Hs3.
    assert (Hw : snd (chat lib env msg w) = record_sent (chat_request lib msg tok') w3).
    { rewrite Hchat.
      destruct (inference env (List.length (sent w3)) (chat_request lib msg tok'));
        reflexivity. }
    assert (H401' : forall r2 d,
      inference env (List.length (sent w3)) (chat_request lib msg tok') = Responds r2 ->
      status_code r2 = 401 -> error_detail lib r2 = Ret d ->
      fst (chat lib env msg w) = Raise (UpstreamError d)).
    { intros r2 d H2 Hc Hd. rewrite Hchat, H2. unfold settle, raise_for_status.
      rewrite Hc, Hd. reflexivity. }
    split; [ exact Hw | ]. split; [ | split; [ exact H401' | split ] ].
    + rewrite Hw. simpl. rewrite Hs3, Hs1. reflexivity.
    + intros r2 H2 Hc Hbody. destruct (error_detail_plain r2 Hbody) as (d & Hd).
      exists d. exact (H401' r2 d H2 Hc Hd).
    + intros r2 data s H2 Hc Hj Hf Hv. rewrite Hchat, H2.
      unfold settle, raise_for_status. rewrite Hc. simpl.
      unfold parse_response. rewrite Hj, Hf, Hv. reflexivity.
Qed.

(** C10.  A failure of the first acquisition reaches the caller as the
    gateway's [AuthFailed] (401), whatever the acquirer raised.  A failure
    of the acquisition that follows a 401 of the deployment reaches the
    caller as the acquirer raised it, [AuthServiceUnavailable] (503) or
    the acquirer's [AuthFailed] (500), and not as the gateway's 401. *)
Theorem chat_reacquire_failure_propagates (msg : ChatMessage) :
  str_nonempty (strip (message msg)) = true ->
  (forall w e w1,
     get_ibm_token lib env w = (Raise e, w1) ->
     chat lib env msg w = (Raise AuthFailed, w1))
  /\ (forall w tok w1 r1 e w3,
        get_ibm_token lib env w = (Ret tok, w1) ->
        inference env (List.length (sent w1)) (chat_request lib msg tok) = Responds r1 ->
        status_code r1 = 401 ->
        get_ibm_token lib env (snd (invalidate (record_sent (chat_request lib msg tok) w1)))
        = (Raise e, w3) ->
        chat lib env msg w = (Raise e, w3)
        /\ (e = AuthServiceUnavailable \/ e = AcquirerAuthFailed)
        /\ e <> AuthFailed).
Proof.
  intros Hmsg. split.
  - intros w e w1 Hg. rewrite chat_eq, Hmsg, Hg. reflexivity.
  - intros w tok w1 r1 e w3 Htok H1 H401 Hg.
    rewrite (chat_after_401 msg w w1 tok r1 Hmsg Htok H1 H401), Hg.
    split; [ reflexivity | ].
    apply get_ibm_token_raises in Hg. split; [ exact Hg | ].
    destruct Hg as [-> | ->]; discriminate.
Qed.

Lemma attempt_network_down (w : World) (k : NetworkError) :
  cache_fresh (token_cache w) (clock env (time_reads w)) = false ->
  identity env (token_posts w) = Fails k ->
  exists w',
    get_ibm_token_attempt lib env w = (Raise AuthServiceUnavailable, w')
    /\ token_cache w' = token_cache w
    /\ token_posts w' = S (token_posts w).
Proof.
  intros Hstale Hk.
  assert (Hmiss : fst (cache_hit env w) = Ret false)
    by (rewrite cache_hit_fresh, Hstale; reflexivity).
  destruct (cache_hit_frame w) as (Hc & Hp & _).
  rewrite (attempt_miss w Hmiss). cbv zeta. rewrite Hp, Hk.
  eexists. split; [ reflexivity | ]. simpl. rewrite Hc, Hp. split; reflexivity.
Qed.

(** Three network-level failures in a row exhaust the acquirer. *)
Lemma get_ibm_token_network_down (w : World) (k1 k2 k3 : NetworkError) :
  (forall n, cache_fresh (token_cache w) (clock env n) = false) ->
  identity env (token_posts w) = Fails k1 ->
  identity env (S (token_posts w)) = Fails k2 ->
  identity env (S (S (token_posts w))) = Fails k3 ->
  exists w', get_ibm_token lib env w = (Raise AuthServiceUnavailable, w').
Proof.
  intros Hstale G1 G2 G3.
  destruct (attempt_network_down (with_attempt_number 1 w) k1) as (w1 & H1 & Hc1 & Hp1);
    [ apply Hstale | exact G1 | ].
  simpl in Hc1, Hp1.
  destruct (attempt_network_down (backoff w1) k2) as (w2 & H2 & Hc2 & Hp2);
    [ simpl; rewrite Hc1; apply Hstale | simpl; rewrite Hp1; exact G2 | ].
  simpl in Hc2, Hp2.
  destruct (attempt_network_down (backoff w2) k3) as (w3 & H3 & _);
    [ simpl; rewrite Hc2, Hc1; apply Hstale | simpl; rewrite Hp2, Hp1; exact G3 | ].
  exists w3. rewrite get_ibm_token_unfold, H1, H2, H3. reflexivity.
Qed.

(** C4 (amended).  A network-level failure of a dispatch to the
    deployment, the first one or the one repeated after a 401, reaches the
    caller as [ServiceUnavailable] (503).  Network-level failures of the
    identity service that exhaust the three attempts reach the caller as
    [AuthFailed] (401) in the first acquisition, and as
    [AuthServiceUnavailable] (503) in the acquisition that follows a 401
    of the deployment. *)
Theorem chat_network_failures (msg : ChatMessage) :
  str_nonempty (strip (message msg)) = true ->
  (forall w tok w1 k,
     get_ibm_token lib env w = (Ret tok, w1) ->
     inference env (List.length (sent w1)) (chat_request lib msg tok) = Fails k ->
     chat lib env msg w
     = (Raise ServiceUnavailable, record_sent (chat_request lib msg tok) w1))
  /\ (forall w tok w1 r1 tok' w3 k,
        get_ibm_token lib env w = (Ret tok, w1) ->
        inference env (List.length (sent w1)) (chat_request lib msg tok) = Responds r1 ->
        status_code r1 = 401 ->
        get_ibm_token lib env (snd (invalidate (record_sent (chat_request lib msg tok) w1)))
        = (Ret tok', w3) ->
        inference env (List.length (sent w3)) (chat_request lib msg tok') = Fails k ->
        chat lib env msg w
        = (Raise ServiceUnavailable, record_sent (chat_request lib msg tok') w3))
  /\ (forall w k1 k2 k3,
        (forall n, cache_fresh (token_cache w) (clock env n) = false) ->
        identity env (token_posts w) = Fails k1 ->
        identity env (S (token_posts w)) = Fails k2 ->
        identity env (S (S (token_posts w))) = Fails k3 ->
        fst (chat lib env msg w) = Raise AuthFailed
        /\ category AuthFailed = Some 401)
  /\ (forall w tok w1 r1 k1 k2 k3,
        get_ibm_token lib env w = (Ret tok, w1) ->
        inference env (List.length (sent w1)) (chat_request lib msg tok) = Responds r1 ->
        status_code r1 = 401 ->
        identity env (token_posts w1) = Fails k1 ->
        identity env (S (token_posts w1)) = Fails k2 ->
        identity env (S (S (token_posts w1))) = Fails k3 ->
        fst (chat lib env msg w) = Raise AuthServiceUnavailable
        /\ category AuthServiceUnavailable = category ServiceUnavailable).
Proof.
  intros Hmsg. split; [ | split; [ | split ] ].
  - intros w tok w1 k Htok Hk.
    rewrite chat_eq, Hmsg, Htok, dispatch_eq. cbv zeta.
    unfold chat_request in Hk. rewrite Hk. reflexivity.
  - intros w tok w1 r1 tok' w3 k Htok H1 H401 Hg Hk.
    rewrite (chat_after_401 msg w w1 tok r1 Hmsg Htok H1 H401), Hg, Hk. reflexivity.
  - intros w k1 k2 k3 Hstale G1 G2 G3.
    destruct (get_ibm_token_network_down w k1 k2 k3 Hstale G1 G2 G3) as (w' & Hg).
    rewrite chat_eq, Hmsg, Hg. split; reflexivity.
  - intros w tok w1 r1 k1 k2 k3 Htok H1 H401 G1 G2 G3.
    destruct (get_ibm_token_network_down
                (snd (invalidate (record_sent (chat_request lib msg tok) w1))) k1 k2 k3)
      as (w' & Hg); [ intros n; reflexivity | exact G1 | exact G2 | exact G3 | ].
    rewrite (chat_after_401 msg w w1 tok r1 Hmsg Htok H1 H401), Hg. split; reflexivity.
Qed.

(** Whatever happens, one call of the handler sends at most two requests
    to the deployment. *)
Lemma chat_sends_at_most_twice (msg : ChatMessage) (w : World) :
  (List.length (sent (snd (chat lib env msg w))) <= List.length (sent w) + 2)%nat.
Proof.
  rewrite chat_eq.
  destruct (str_nonempty (strip (message msg))); [ | simpl; lia ].
  destruct (get_ibm_token lib env w) as [[tok | e] w1] eqn:Htok;
    pose proof (get_ibm_token_sent _ _ _ Htok) as Hs1; [ | simpl; rewrite Hs1; lia ].
  rewrite dispatch_eq. cbv zeta.
  match goal with
  | |- context [inference env ?n ?rq] => destruct (inference env n rq) as [k | r]
  end; [ simpl; rewrite Hs1; lia | ].
  destruct (status_code r =? 401).
  - match goal with
    | |- context [get_ibm_token lib env (snd ?x)] =>
        destruct (get_ibm_token lib env (snd x)) as [[tok' | e] w3] eqn:Hg
    end; pose proof (get_ibm_token_sent _ _ _ Hg) as Hs3; simpl in Hs3.
    + match goal with
      | |- context [inference env ?n ?rq] => destruct (inference env n rq) as [k | r2]
      end; [ simpl; rewrite Hs3, Hs1; simpl; lia | ].
      destruct (settle lib r2) as [r' | e];
        [ destruct (parse_response lib r') | ]; simpl; rewrite Hs3, Hs1; simpl; lia.
    + simpl. rewrite Hs3, Hs1. simpl. lia.
  - destruct (settle lib r) as [r' | e];
      [ destruct (parse_response lib r') | ]; simpl; rewrite Hs1; lia.
Qed.

(** Building the detail of the 502 raises [AttributeError] when the
    non-empty error body is JSON but not an object. *)
Lemma error_detail_not_object (r : Response) (body : value) :
  str_nonempty (text r) = true ->
  json r = Some body ->
  is_dict body = false ->
  error_detail lib r = Raise AttributeError.
Proof.
  intros Ht Hj Hd. unfold error_detail, response_json. rewrite Ht, Hj.
  destruct body; simpl in *; try discriminate; reflexivity.
Qed.

(** When the dispatch repeated after a 401 is answered by a 4xx or 5xx
    whose non-empty body is JSON but not an object, the handler of the
    [HTTPError] raises while it builds the detail, and the caller gets
    [InternalError] (500) instead of [UpstreamError] (502). *)
Theorem chat_second_error_body_not_object
        (msg : ChatMessage) (w w1 w3 : World) (tok tok' body : value) (r1 r2 : Response) :
  str_nonempty (strip (message msg)) = true ->
  get_ibm_token lib env w = (Ret tok, w1) ->
  inference env (List.length (sent w1)) (chat_request lib msg tok) = Responds r1 ->
  status_code r1 = 401 ->
  get_ibm_token lib env (snd (invalidate (record_sent (chat_request lib msg tok) w1)))
  = (Ret tok', w3) ->
  inference env (List.length (sent w3)) (chat_request lib msg tok') = Responds r2 ->
  400 <= status_code r2 < 600 ->
  str_nonempty (text r2) = true ->
  json r2 = Some body ->
  is_dict body = false ->
  fst (chat lib env msg w) = Raise InternalError.
Proof.
  intros Hmsg Htok H1 H401 Hg H2 Hr Ht Hj Hd.
  rewrite (chat_after_401 msg w w1 tok r1 Hmsg Htok H1 H401), Hg, H2.
  unfold settle, raise_for_status.
  replace ((400 <=? status_code r2) && (status_code r2 <? 600)) with true
    by (symmetry; rewrite andb_true_iff, Z.leb_le, Z.ltb_lt; lia).
  rewrite (error_detail_not_object r2 body Ht Hj Hd). reflexivity.
Qed.

End Properties.

(** * The properties on the sample settings *)

Lemma get_ibm_token_retry_witness :
  get_ibm_token sample_libs env_third_time initial_world
  = (Ret (VStr "t3"),
     mkWorld (mkCache (VStr "t3") 4600) 1 3 [] [4; 4] 3).
Proof.
  pose proof (get_ibm_token_retry sample_libs env_third_time initial_world) as H.
  cbv zeta in H. destruct H as (_ & _ & _ & _ & _ & H).
  specialize (H (VStr "t3") (fun _ => eq_refl) eq_refl eq_refl eq_refl).
  reflexivity.
Defined.

Lemma get_ibm_token_attempt_outcomes_witness :
  fst (cache_hit env_identity_500 initial_world) = Ret false
  /\ fst (get_ibm_token_attempt sample_libs env_identity_500 initial_world)
     = Raise AuthServiceUnavailable.
Proof.
  split; [ reflexivity | ].
  pose proof (get_ibm_token_attempt_outcomes sample_libs env_identity_500 initial_world
                eq_refl) as H.
  cbv zeta in H. destruct H as (_ & H & _).
  apply (H server_error); [ reflexivity | simpl; lia ].
Defined.

Lemma cache_hit_spec_witness :
  get_ibm_token_attempt sample_libs env_identity_down world_with_token
  = (Ret (VStr "tok"), tick world_with_token).
Proof.
  pose proof (cache_hit_spec sample_libs env_identity_down world_with_token) as H.
  cbv zeta in H. destruct H as (_ & H & _).
  apply H; [ simpl; lia | reflexivity ].
Defined.

Lemma get_watsonx_payload_shape_witness :
  strip "hello" <> ""
  /\ get_watsonx_payload "hello" =
     VDict [ ("messages", VList [ VDict [ ("content", VStr "hello"); ("role", VStr "user") ] ]);
             ("project_id", VStr "your_PROJECT_ID");
             ("parameters", generation_parameters) ].
Proof.
  assert (Hne : strip "hello" <> "") by (simpl; discriminate).
  split; [ exact Hne | ].
  destruct (get_watsonx_payload_shape "hello" Hne) as (_ & _ & H).
  apply (H "hello" eq_refl).
Defined.

Lemma health_check_total_witness :
  health_check sample_libs env_always_401 initial_world
  = (Ret (HealthResponse.mk "healthy" true),
     snd (get_ibm_token sample_libs env_always_401 initial_world)).
Proof.
  destruct (health_check_total sample_libs env_always_401 initial_world) as (_ & _ & H & _).
  apply (H (VStr "t")); reflexivity.
Defined.

Lemma chat_auth_retry_witness :
  fst (chat sample_libs env_always_401 hello initial_world)
  = Raise (UpstreamError "HTTP Error: 401 - Unauthorized")
  /\ List.length (sent (snd (chat sample_libs env_always_401 hello initial_world))) = 2%nat.
Proof.
  pose proof (chat_auth_retry sample_libs env_always_401 hello initial_world
                (snd (get_ibm_token sample_libs env_always_401 initial_world))
                (VStr "t") unauthorized eq_refl eq_refl eq_refl eq_refl) as H.
  cbv zeta in H. destruct H as (_ & _ & H).
  specialize (H (VStr "t") _ eq_refl). cbv zeta in H.
  destruct H as (_ & Hsent & H401 & _).
  split.
  - apply (H401 unauthorized); reflexivity.
  - rewrite Hsent. reflexivity.
Defined.

Lemma chat_network_failures_witness :
  fst (chat sample_libs env_inference_down hello initial_world) = Raise ServiceUnavailable.
Proof.
  destruct (chat_network_failures sample_libs env_inference_down hello eq_refl) as (H & _).
  rewrite (H initial_world (VStr "t") _ Timeout eq_refl eq_refl). reflexivity.
Defined.

Lemma chat_reacquire_failure_propagates_witness :
  fst (chat sample_libs env_refresh_fails hello initial_world) = Raise AuthServiceUnavailable.
Proof.
  destruct (chat_reacquire_failure_propagates sample_libs env_refresh_fails hello eq_refl)
    as (_ & H).
  destruct (H initial_world (VStr "t1") _ unauthorized AuthServiceUnavailable _
              eq_refl eq_refl eq_refl eq_refl) as (-> & _).
  reflexivity.
Defined.

Lemma chat_second_error_body_not_object_witness :
  fst (chat sample_libs env_always_401_list_body hello initial_world) = Raise InternalError.
Proof.
  apply (chat_second_error_body_not_object sample_libs env_always_401_list_body hello
           initial_world
           (snd (get_ibm_token sample_libs env_always_401_list_body initial_world))
           (mkWorld (mkCache (VStr "t") 4601) 2 2
                    [chat_request sample_libs hello (VStr "t")] [] 1)
           (VStr "t") (VStr "t") (VList []) unauthorized_list_body unauthorized_list_body);
    try reflexivity.
  simpl. lia.
Defined.

(** ** Inputs on which the statements of the specification fail *)

(** C1.  The first dispatch is answered by a 401 and the acquisition that
    follows fails: the request is not sent again (one request was sent, not
    two) and the outcome is the acquirer's error. *)
Lemma chat_auth_retry_counterexample :
  str_nonempty (strip (message hello)) = true
  /\ fst (get_ibm_token sample_libs env_refresh_fails initial_world) = Ret (VStr "t1")
  /\ inference env_refresh_fails 0 (chat_request sample_libs hello (VStr "t1"))
     = Responds unauthorized
  /\ status_code unauthorized = 401
  /\ fst (chat sample_libs env_refresh_fails hello initial_world)
     = Raise AuthServiceUnavailable
  /\ List.length (sent (snd (chat sample_libs env_refresh_fails hello initial_world)))
     = 1%nat.
Proof. repeat split. Qed.

(** C3.  The identity service answers with a 500, a response that is not
    a 2xx: the attempt raises [AuthServiceUnavailable], not [AuthFailed]. *)
Lemma get_ibm_token_attempt_counterexample :
  identity env_identity_500 0 = Responds server_error
  /\ status_code server_error = 500
  /\ fst (get_ibm_token_attempt sample_libs env_identity_500 initial_world)
     = Raise AuthServiceUnavailable
  /\ AuthServiceUnavailable <> AcquirerAuthFailed.
Proof. repeat split. discriminate. Qed.

(** C4.  The identity service cannot be reached: the caller gets
    [AuthFailed] (401), not [ServiceUnavailable] (503). *)
Lemma chat_network_failures_counterexample :
  (forall n, identity env_identity_down n = Fails ConnectionError)
  /\ fst (chat sample_libs env_identity_down hello initial_world) = Raise AuthFailed
  /\ category AuthFailed <> category ServiceUnavailable.
Proof. repeat split. discriminate. Qed.

(** C6.  A string is not a dict, and it is returned as it is. *)
Lemma format_response_counterexample :
  is_dict (VStr "abc") = false
  /\ format_response sample_libs (VStr "abc") = Ret (VStr "abc")
  /\ VStr "abc" <> placeholder.
Proof. repeat split. discriminate. Qed.

(** C9.  The identity service grants an empty token: the acquisition
    succeeds and the health check reports a readiness that is false. *)
Lemma health_check_counterexample :
  fst (get_ibm_token sample_libs env_empty_token initial_world) = Ret (VStr "")
  /\ fst (health_check sample_libs env_empty_token initial_world)
     = Ret (HealthResponse.mk "healthy" false).
Proof. repeat split. Qed.

(** * Further properties of the handlers *)

Section Coverage.

Variable lib : Libs.
Variable env : Env.

(** ** Outcomes of the handler *)

(** An exception raised while the detail of the 502 is built is none of
    FastAPI's: the outer handler turns it into [InternalError]. *)
Lemma error_detail_raises (r : Response) (e : exn) :
  error_detail lib r = Raise e -> at_boundary e = InternalError.
Proof.
  unfold error_detail, response_json.
  destruct (str_nonempty (text r)); [ | discriminate ].
  destruct (json r) as [error_data | ]; simpl; [ | discriminate ].
  destruct error_data; simpl; try (intros H; injection H as <-; reflexivity).
  destruct (dict_lookup d "errors") as [errors | ]; simpl; [ | discriminate ].
  destruct errors as [ | b | z | f | s | l | d']; simpl;
    try (intros H; injection H as <-; reflexivity).
  - destruct s; simpl; intros H; injection H as <-; reflexivity.
  - destruct l as [ | first rest]; simpl; [ intros H; injection H as <-; reflexivity | ].
    destruct first; simpl; try (intros H; injection H as <-; reflexivity).
    discriminate.
Qed.

(** What the API call can raise, as the outer handler passes it on. *)
Lemma dispatch_raises (endpoint : string) (payload tok : value) (w w' : World) (e : exn) :
  dispatch lib env endpoint payload tok w = (Raise e, w') ->
  (exists d, at_boundary e = UpstreamError d)
  \/ at_boundary e = ServiceUnavailable \/ at_boundary e = InternalError
  \/ at_boundary e = AuthServiceUnavailable \/ at_boundary e = AcquirerAuthFailed.
Proof.
  assert (Hsettle : forall r w0,
    (settle lib r, w0) = (Raise e, w') ->
    (exists d, at_boundary e = UpstreamError d) \/ at_boundary e = ServiceUnavailable
    \/ at_boundary e = InternalError
    \/ at_boundary e = AuthServiceUnavailable \/ at_boundary e = AcquirerAuthFailed).
  { intros r w0. unfold settle.
    destruct (raise_for_status r) as [u | eh]; [ discriminate | ].
    destruct (error_detail lib r) as [d | ed] eqn:Hd; intros H; injection H as <- <-.
    - left. exists d. reflexivity.
    - right. right. left. exact (error_detail_raises r ed Hd). }
  rewrite dispatch_eq. cbv zeta.
  match goal with
  | |- context [inference env ?n ?rq] => destruct (inference env n rq) as [k | r]
  end.
  - intros H. injection H as <- <-. right. left. reflexivity.
  - destruct (status_code r =? 401); [ | apply Hsettle ].
    match goal with
    | |- context [get_ibm_token lib env (snd ?x)] =>
        destruct (get_ibm_token lib env (snd x)) as [[tok' | ea] w3] eqn:Hg
    end.
    + match goal with
      | |- context [inference env ?n ?rq] => destruct (inference env n rq) as [k | r2]
      end; [ | apply Hsettle ].
      intros H. injection H as <- <-. right. left. reflexivity.
    + intros H. injection H as <- <-.
      apply get_ibm_token_raises in Hg.
      rewrite (at_boundary_acquirer ea Hg). tauto.
Qed.

Lemma parse_response_raises (r : Response) (e : exn) :
  parse_response lib r = Raise e -> e = UpstreamError "Invalid response from service".
Proof.
  unfold parse_response. destruct (json r) as [data | ].
  - destruct (format_response_never_raises lib data) as (v & ->).
    destruct (validate_str lib v); [ discriminate | ].
    intros H. injection H as <-. reflexivity.
  - intros H. injection H as <-. reflexivity.
Qed.

Lemma parse_response_returns (r : Response) (c : ChatResponse.t) :
  parse_response lib r = Ret c -> ChatResponse.status c = "success".
Proof.
  unfold parse_response. destruct (json r) as [data | ]; [ | discriminate ].
  destruct (format_response lib data) as [v | e]; [ | discriminate ].
  destruct (validate_str lib v); [ | discriminate ].
  intros H. injection H as <-. reflexivity.
Qed.

(** The outcomes of [chat] for a message that passes the validation. *)
Lemma chat_outcomes_nonblank (msg : ChatMessage) (w : World) :
  str_nonempty (strip (message msg)) = true ->
  match fst (chat lib env msg w) with
  | Ret c => ChatResponse.status c = "success"
  | Raise e =>
      e = AuthFailed \/ (exists d, e = UpstreamError d)
      \/ e = ServiceUnavailable \/ e = InternalError
      \/ e = AuthServiceUnavailable \/ e = AcquirerAuthFailed
  end.
Proof.
  intros Hmsg. rewrite chat_eq, Hmsg.
  destruct (get_ibm_token lib env w) as [[tok | e] w1]; simpl; [ | tauto ].
  match goal with
  | |- context [dispatch lib env ?ep ?pl tok w1] =>
      destruct (dispatch lib env ep pl tok w1) as [[r | e] w2] eqn:Hd
  end.
  - destruct (parse_response lib r) as [c | e] eqn:Hp; simpl.
    + exact (parse_response_returns r c Hp).
    + apply parse_response_raises in Hp. subst e. right. left. eexists. reflexivity.
  - simpl. apply dispatch_raises in Hd. tauto.
Qed.

(** A call of [chat] returns a result whose status is ["success"], or
    raises an [HTTPException] of one of seven kinds: the five of the
    gateway (400, 401, 502, 503, 500) and the two the acquirer raises in
    the re-authentication (503 and 500 with the acquirer's details).  No
    other exception leaves the handler. *)
Theorem chat_outcomes (msg : ChatMessage) (w : World) :
  match fst (chat lib env msg w) with
  | Ret c => ChatResponse.status c = "success"
  | Raise e => surfaced e
  end.
Proof.
  destruct (str_nonempty (strip (message msg))) eqn:Hmsg.
  - pose proof (chat_outcomes_nonblank msg w Hmsg) as H.
    destruct (fst (chat lib env msg w)); [ exact H | ].
    unfold surfaced. tauto.
  - rewrite chat_eq, Hmsg. simpl. unfold surfaced. tauto.
Qed.

(** ** The credential acquirer and its cache *)

(** An attempt that returns leaves the token it returns in the cache. *)
Lemma attempt_returns (w w' : World) (t : value) :
  get_ibm_token_attempt lib env w = (Ret t, w') -> token (token_cache w') = t.
Proof.
  intros H. destruct (cache_hit_cases env w) as [Hhit | Hmiss].
  - rewrite (attempt_hit lib env w Hhit) in H. injection H as <- <-. reflexivity.
  - pose proof (attempt_miss_grants lib env w Hmiss) as G. cbv zeta in G.
    destruct (identity_grants (identity env (token_posts w))).
    + rewrite G in H. injection H as <- <-. reflexivity.
    + destruct G as (e & G & _). rewrite G in H. discriminate.
Qed.

Lemma get_ibm_token_fresh (w : World) :
  cache_fresh (token_cache w) (clock env (time_reads w)) = true ->
  get_ibm_token lib env w = (Ret (token (token_cache w)), tick (with_attempt_number 1 w)).
Proof.
  intros Hfresh. rewrite get_ibm_token_unfold.
  rewrite (attempt_hit lib env (with_attempt_number 1 w)); [ reflexivity | ].
  rewrite cache_hit_fresh. simpl. rewrite Hfresh. reflexivity.
Qed.

Lemma get_ibm_token_stale (w : World) :
  cache_fresh (token_cache w) (clock env (time_reads w)) = false ->
  (token_posts w < token_posts (snd (get_ibm_token lib env w)))%nat.
Proof.
  intros Hstale.
  assert (Hfirst : forall r w1,
    get_ibm_token_attempt lib env (with_attempt_number 1 w) = (r, w1) ->
    token_posts w1 = S (token_posts w)).
  { intros r w1 H1.
    assert (Hmiss : fst (cache_hit env (with_attempt_number 1 w)) = Ret false)
      by (rewrite cache_hit_fresh; simpl; rewrite Hstale; reflexivity).
    pose proof (attempt_miss_grants lib env _ Hmiss) as G. cbv zeta in G.
    destruct (cache_hit_frame env (with_attempt_number 1 w)) as (_ & Hp & _).
    simpl in G, Hp.
    destruct (identity_grants (identity env (token_posts w))).
    - rewrite G in H1. injection H1 as <- <-. simpl. rewrite Hp. reflexivity.
    - destruct G as (e & G & _). rewrite G in H1. injection H1 as <- <-.
      simpl. rewrite Hp. reflexivity. }
  destruct (get_ibm_token_runs lib env w) as
    [ (v & w1 & H1 & ->)
    | [ (e1 & w1 & v & w2 & H1 & H2 & ->)
      | (e1 & w1 & e2 & w2 & r & w3 & H1 & H2 & H3 & ->) ] ]; simpl.
  - rewrite (Hfirst _ _ H1). lia.
  - apply Hfirst in H1. apply attempt_frame_eq in H2. simpl in H2. lia.
  - apply Hfirst in H1. apply attempt_frame_eq in H2, H3. simpl in H2, H3. lia.
Qed.

(** The acquirer goes to the network exactly when the cache holds no
    usable token: with a truthy token that has not expired it returns
    that token after a single attempt, without a request, a wait or a
    change of the cache; otherwise it posts to the identity service at
    least once. *)
Theorem get_ibm_token_network_iff_stale (w : World) :
  let fresh := cache_fresh (token_cache w) (clock env (time_reads w)) in
  let w' := snd (get_ibm_token lib env w) in
  (fresh = true ->
     fst (get_ibm_token lib env w) = Ret (token (token_cache w))
     /\ token_cache w' = token_cache w
     /\ token_posts w' = token_posts w
     /\ slept w' = slept w
     /\ attempt_number w' = 1%nat)
  /\ (fresh = false -> (token_posts w < token_posts w')%nat)
  /\ (token_posts w' = token_posts w <-> fresh = true).
Proof.
  cbv zeta.
  assert (Hf : cache_fresh (token_cache w) (clock env (time_reads w)) = true ->
               fst (get_ibm_token lib env w) = Ret (token (token_cache w))
               /\ token_cache (snd (get_ibm_token lib env w)) = token_cache w
               /\ token_posts (snd (get_ibm_token lib env w)) = token_posts w
               /\ slept (snd (get_ibm_token lib env w)) = slept w
               /\ attempt_number (snd (get_ibm_token lib env w)) = 1%nat).
  { intros H. rewrite (get_ibm_token_fresh w H). repeat split. }
  split; [ exact Hf | ]. split; [ apply get_ibm_token_stale | ].
  destruct (cache_fresh (token_cache w) (clock env (time_reads w))) eqn:Hc.
  - split; [ reflexivity | ]. intros _. apply Hf. reflexivity.
  - pose proof (get_ibm_token_stale w Hc). split; [ lia | discriminate ].
Qed.

Lemma get_ibm_token_ret_frame (w w' : World) (t : value) :
  get_ibm_token lib env w = (Ret t, w') ->
  token (token_cache w') = t.
Proof.
  intros H.
  destruct (get_ibm_token_runs lib env w) as
    [ (v & w1 & H1 & G)
    | [ (e1 & w1 & v & w2 & H1 & H2 & G)
      | (e1 & w1 & e2 & w2 & r & w3 & H1 & H2 & H3 & G) ] ];
    rewrite G in H; injection H as -> ->.
  - exact (attempt_returns _ _ _ H1).
  - exact (attempt_returns _ _ _ H2).
  - exact (attempt_returns _ _ _ H3).
Qed.

Lemma get_ibm_token_raise_frame (w w' : World) (e : exn) :
  get_ibm_token lib env w = (Raise e, w') ->
  token_cache w' = token_cache w
  /\ token_posts w' = (token_posts w + 3)%nat
  /\ slept w' = 4 :: 4 :: slept w
  /\ attempt_number w' = 3%nat
  /\ sent w' = sent w.
Proof.
  intros H.
  destruct (get_ibm_token_runs lib env w) as
    [ (v & w1 & H1 & G)
    | [ (e1 & w1 & v & w2 & H1 & H2 & G)
      | (e1 & w1 & e2 & w2 & r & w3 & H1 & H2 & H3 & G) ] ];
    rewrite G in H; try discriminate.
  injection H as -> ->.
  pose proof (attempt_frame_eq lib env _ _ _ H1) as (Hs1 & Hl1 & Ha1 & _).
  pose proof (attempt_frame_eq lib env _ _ _ H2) as (Hs2 & Hl2 & Ha2 & _).
  pose proof (attempt_frame_eq lib env _ _ _ H3) as (Hs3 & Hl3 & Ha3 & _).
  apply attempt_raises in H1, H2, H3.
  destruct H1 as (_ & _ & Hc1 & Hp1 & _). destruct H2 as (_ & _ & Hc2 & Hp2 & _).
  destruct H3 as (_ & _ & Hc3 & Hp3 & _).
  unfold backoff, with_attempt_number, record_sleep in *. simpl in *.
  rewrite Hc3, Hc2, Hc1, Hp3, Hp2, Hp1, Hl3, Hl2, Hl1, Ha3, Ha2, !Ha1, Hs3, Hs2, Hs1.
  repeat split. lia.
Qed.

(** A token the acquirer returns is the token the cache holds afterwards,
    whether it came from the cache or from the identity service, and it is
    returned without anything being sent to the deployment. *)
Theorem get_ibm_token_returns_cached (w w' : World) (t : value) :
  get_ibm_token lib env w = (Ret t, w') ->
  token (token_cache w') = t /\ sent w' = sent w.
Proof.
  intros H. split.
  - exact (get_ibm_token_ret_frame w w' t H).
  - exact (get_ibm_token_sent lib env w w' (Ret t) H).
Qed.

(** When the acquirer raises, it has made three attempts, posted three
    times to the identity service and slept twice 4; the cache is as it was
    before the call and nothing was sent to the deployment. *)
Theorem get_ibm_token_failure (w w' : World) (e : exn) :
  get_ibm_token lib env w = (Raise e, w') ->
  token_cache w' = token_cache w
  /\ token_posts w' = (token_posts w + 3)%nat
  /\ slept w' = 4 :: 4 :: slept w
  /\ attempt_number w' = 3%nat
  /\ sent w' = sent w.
Proof. exact (get_ibm_token_raise_frame w w' e). Qed.

(** A token fetched from the identity service is served from the cache,
    without a further request, at every clock reading earlier than 3600
    after the fetch; from that reading on the acquirer goes to the identity
    service again. *)
Theorem fetched_token_lifetime (w w2 : World) (t : value) :
  fst (cache_hit env w) = Ret false ->
  identity_grants (identity env (token_posts w)) = Some t ->
  truthy t = true ->
  token_cache w2 = token_cache (snd (get_ibm_token_attempt lib env w)) ->
  let fetched_at := clock env (time_reads (snd (cache_hit env w))) in
  (clock env (time_reads w2) < fetched_at + 3600 ->
     fst (get_ibm_token lib env w2) = Ret t
     /\ token_posts (snd (get_ibm_token lib env w2)) = token_posts w2)
  /\ (fetched_at + 3600 <= clock env (time_reads w2) ->
      (token_posts w2 < token_posts (snd (get_ibm_token lib env w2)))%nat).
Proof.
  intros Hmiss Hg Ht Hc. cbv zeta.
  pose proof (attempt_miss_grants lib env w Hmiss) as G. cbv zeta in G.
  rewrite Hg in G. rewrite G in Hc. simpl in Hc.
  split; intros Hclock.
  - assert (Hfresh : cache_fresh (token_cache w2) (clock env (time_reads w2)) = true).
    { unfold cache_fresh. rewrite Hc. simpl. rewrite Ht. simpl. apply Z.ltb_lt. exact Hclock. }
    rewrite (get_ibm_token_fresh w2 Hfresh), Hc. split; reflexivity.
  - apply get_ibm_token_stale. unfold cache_fresh. rewrite Hc. simpl.
    rewrite andb_false_iff. right. apply Z.ltb_ge. exact Hclock.
Qed.

(** Clearing the token keeps the expiry as it is and makes the next call
    of the acquirer go to the identity service, however far in the future
    that expiry lies. *)
Theorem invalidate_forces_refresh (w : World) :
  let w' := snd (invalidate w) in
  expires_at (token_cache w') = expires_at (token_cache w)
  /\ (token_posts w < token_posts (snd (get_ibm_token lib env w')))%nat.
Proof.
  cbv zeta. split; [ reflexivity | ].
  apply (get_ibm_token_stale (snd (invalidate w))). reflexivity.
Qed.

(** ** What a call of [chat] does to the world *)

(** The waits of one call of the acquirer: none, one of 4 or two of 4. *)
Lemma get_ibm_token_slept (w : World) :
  let w' := snd (get_ibm_token lib env w) in
  slept w' = slept w \/ slept w' = 4 :: slept w \/ slept w' = 4 :: 4 :: slept w.
Proof.
  cbv zeta.
  destruct (get_ibm_token_runs lib env w) as
    [ (v & w1 & H1 & ->)
    | [ (e1 & w1 & v & w2 & H1 & H2 & ->)
      | (e1 & w1 & e2 & w2 & r & w3 & H1 & H2 & H3 & ->) ] ]; simpl.
  - apply attempt_frame_eq in H1. simpl in H1. left. apply H1.
  - pose proof (attempt_frame_eq lib env _ _ _ H1) as (_ & Hl1 & Ha1 & _).
    pose proof (attempt_frame_eq lib env _ _ _ H2) as (_ & Hl2 & _).
    unfold backoff, with_attempt_number, record_sleep in *. simpl in *.
    right. left. rewrite Hl2, Hl1, Ha1. reflexivity.
  - pose proof (attempt_frame_eq lib env _ _ _ H1) as (_ & Hl1 & Ha1 & _).
    pose proof (attempt_frame_eq lib env _ _ _ H2) as (_ & Hl2 & Ha2 & _).
    pose proof (attempt_frame_eq lib env _ _ _ H3) as (_ & Hl3 & _).
    unfold backoff, with_attempt_number, record_sleep in *. simpl in *.
    right. right. rewrite Hl3, Hl2, Hl1, Ha2, !Ha1. reflexivity.
Qed.

(** The world a call of [chat] ends in, by the path taken. *)
Lemma chat_world_cases (msg : ChatMessage) (w : World) :
  (str_nonempty (strip (message msg)) = false /\ snd (chat lib env msg w) = w)
  \/ (str_nonempty (strip (message msg)) = true
      /\ ((exists e w1,
             get_ibm_token lib env w = (Raise e, w1) /\ snd (chat lib env msg w) = w1)
          \/ (exists tok w1,
                get_ibm_token lib env w = (Ret tok, w1)
                /\ (snd (chat lib env msg w) = record_sent (chat_request lib msg tok) w1
                    \/ (exists e w3,
                          get_ibm_token lib env
                            (snd (invalidate (record_sent (chat_request lib msg tok) w1)))
                          = (Raise e, w3)
                          /\ snd (chat lib env msg w) = w3)
                    \/ (exists tok' w3,
                          get_ibm_token lib env
                            (snd (invalidate (record_sent (chat_request lib msg tok) w1)))
                          = (Ret tok', w3)
                          /\ snd (chat lib env msg w)
                             = record_sent (chat_request lib msg tok') w3))))).
Proof.
  rewrite chat_eq.
  destruct (str_nonempty (strip (message msg))); [ right | left; split; reflexivity ].
  split; [ reflexivity | ].
  destruct (get_ibm_token lib env w) as [[tok | e] w1] eqn:Htok;
    [ right | left; exists e, w1; split; reflexivity ].
  exists tok, w1. split; [ reflexivity | ].
  rewrite dispatch_eq. cbv zeta. unfold chat_request.
  match goal with
  | |- context [inference env ?n ?rq] => destruct (inference env n rq) as [k | r]
  end; [ left; reflexivity | ].
  destruct (status_code r =? 401).
  - match goal with
    | |- context [get_ibm_token lib env (snd ?x)] =>
        destruct (get_ibm_token lib env (snd x)) as [[tok' | e] w3] eqn:Hg
    end.
    + right. right. exists tok', w3. split; [ reflexivity | ].
      match goal with
      | |- context [inference env ?n ?rq] => destruct (inference env n rq) as [k | r2]
      end; [ reflexivity | ].
      destruct (settle lib r2) as [r' | e];
        [ destruct (parse_response lib r') | ]; reflexivity.
    + right. left. exists e, w3. split; reflexivity.
  - left. destruct (settle lib r) as [r' | e];
      [ destruct (parse_response lib r') | ]; reflexivity.
Qed.

Lemma chat_request_for (msg : ChatMessage) (tok : value) :
  request_for msg (chat_request lib msg tok).
Proof. split; reflexivity. Qed.

(** Every request a call of [chat] sends to the deployment goes to the
    endpoint chosen by the [stream] flag and carries the payload built
    from the message; there are at most two of them, and the two endpoints
    differ. *)
Theorem chat_requests (msg : ChatMessage) (w : World) :
  (exists new,
     sent (snd (chat lib env msg w)) = (new ++ sent w)%list
     /\ (List.length new <= 2)%nat
     /\ Forall (request_for msg) new)
  /\ STREAMING_ENDPOINT <> REGULAR_ENDPOINT.
Proof.
  split; [ | intros H; vm_compute in H; discriminate ].
  destruct (chat_world_cases msg w) as
    [ (_ & ->)
    | (_ & [ (e & w1 & Hg & ->)
           | (tok & w1 & Hg & [ -> | [ (e & w3 & Hg' & ->)
                                     | (tok' & w3 & Hg' & ->) ] ]) ]) ].
  - exists []. repeat split. simpl. lia. constructor.
  - exists []. apply get_ibm_token_sent in Hg. rewrite Hg. repeat split.
    simpl; lia. constructor.
  - exists [chat_request lib msg tok]. apply get_ibm_token_sent in Hg. simpl. rewrite Hg.
    repeat split. lia. repeat constructor.
  - exists [chat_request lib msg tok]. apply get_ibm_token_sent in Hg, Hg'.
    rewrite Hg'. simpl. rewrite Hg. repeat split. lia. repeat constructor.
  - exists [chat_request lib msg tok'; chat_request lib msg tok].
    apply get_ibm_token_sent in Hg, Hg'. simpl. rewrite Hg'. simpl. rewrite Hg.
    repeat split. lia. repeat constructor.
Qed.

(** For a message that passed the validation, a call of [chat] sends
    nothing to the deployment exactly when the first acquisition of a
    token raises: once a token was acquired, at least one request is
    sent. *)
Theorem chat_dispatches_iff (msg : ChatMessage) (w : World) :
  str_nonempty (strip (message msg)) = true ->
  (sent (snd (chat lib env msg w)) = sent w
   <-> exists e w1, get_ibm_token lib env w = (Raise e, w1)).
Proof.
  intros Hmsg.
  assert (Hcons : forall (rq : Request) l, rq :: l <> l).
  { intros rq l H. apply (f_equal (@List.length Request)) in H. simpl in H. lia. }
  assert (Hcons2 : forall (rq rq' : Request) l, rq :: rq' :: l <> l).
  { intros rq rq' l H. apply (f_equal (@List.length Request)) in H. simpl in H. lia. }
  destruct (chat_world_cases msg w) as
    [ (Hb & _)
    | (_ & [ (e & w1 & Hg & ->)
           | (tok & w1 & Hg & Hw) ]) ].
  - rewrite Hmsg in Hb. discriminate.
  - split; [ intros _; exists e, w1; exact Hg | ].
    intros _. exact (get_ibm_token_sent lib env _ _ _ Hg).
  - split.
    + intros Hs. exfalso.
      pose proof (get_ibm_token_sent lib env _ _ _ Hg) as Hs1.
      destruct Hw as [ Hw | [ (e & w3 & Hg' & Hw) | (tok' & w3 & Hg' & Hw) ] ];
        rewrite Hw in Hs.
      * simpl in Hs. rewrite Hs1 in Hs. exact (Hcons _ _ Hs).
      * apply get_ibm_token_sent in Hg'. rewrite Hg' in Hs. simpl in Hs.
        rewrite Hs1 in Hs. exact (Hcons _ _ Hs).
      * apply get_ibm_token_sent in Hg'. simpl in Hs. rewrite Hg' in Hs. simpl in Hs.
        rewrite Hs1 in Hs. exact (Hcons2 _ _ _ Hs).
    + intros (e & w1' & Hg'). rewrite Hg in Hg'. discriminate.
Qed.

(** One call of [chat] posts at most six times to the identity service
    (three per acquisition) and sleeps at most 16 in the retry waits. *)
Theorem chat_resource_bounds (msg : ChatMessage) (w : World) :
  let w' := snd (chat lib env msg w) in
  (token_posts w <= token_posts w' <= token_posts w + 6)%nat
  /\ total_wait (slept w) <= total_wait (slept w') <= total_wait (slept w) + 16.
Proof.
  cbv zeta.
  assert (Hcost : forall v r v',
    get_ibm_token lib env v = (r, v') ->
    (token_posts v <= token_posts v' <= token_posts v + 3)%nat
    /\ total_wait (slept v) <= total_wait (slept v') <= total_wait (slept v) + 8).
  { intros v r v' H.
    pose proof (get_ibm_token_frame lib env v) as F. cbv zeta in F.
    pose proof (get_ibm_token_slept v) as S. cbv zeta in S. rewrite H in F, S. simpl in F, S.
    split; [ apply F | ].
    destruct S as [-> | [-> | ->]]; unfold total_wait; cbn [fold_right]; lia. }
  destruct (chat_world_cases msg w) as
    [ (_ & ->)
    | (_ & [ (e & w1 & Hg & ->)
           | (tok & w1 & Hg & [ -> | [ (e & w3 & Hg' & ->)
                                     | (tok' & w3 & Hg' & ->) ] ]) ]) ].
  - split; lia.
  - apply Hcost in Hg. split; lia.
  - apply Hcost in Hg. cbn [record_sent token_posts slept]. split; lia.
  - apply Hcost in Hg, Hg'.
    cbn [record_sent invalidate set_token with_cache snd token_posts slept] in Hg'.
    split; lia.
  - apply Hcost in Hg, Hg'.
    cbn [record_sent invalidate set_token with_cache snd token_posts slept] in *.
    split; lia.
Qed.

(** ** Answers of the deployment *)

(** The handler once the first dispatch has an answer that is no 401. *)
Lemma chat_first_response (msg : ChatMessage) (w w1 : World) (tok : value) (r : Response) :
  str_nonempty (strip (message msg)) = true ->
  get_ibm_token lib env w = (Ret tok, w1) ->
  inference env (List.length (sent w1)) (chat_request lib msg tok) = Responds r ->
  status_code r <> 401 ->
  chat lib env msg w =
  (match settle lib r with
   | Raise e => Raise (at_boundary e)
   | Ret r' =>
       match parse_response lib r' with
       | Ret c => Ret c
       | Raise e => Raise (at_boundary e)
       end
   end,
   record_sent (chat_request lib msg tok) w1).
Proof.
  intros Hmsg Htok H1 Hs.
  rewrite chat_eq, Hmsg, Htok, dispatch_eq. cbv zeta.
  unfold chat_request in *. rewrite H1.
  destruct (Z.eqb_spec (status_code r) 401) as [E | _]; [ contradiction | ].
  destruct (settle lib r) as [r' | e]; [ | reflexivity ].
  destruct (parse_response lib r'); reflexivity.
Qed.

Lemma error_detail_forms (r : Response) :
  let head := "HTTP Error: " ++ str_of_int (status_code r) in
  (text r = "" -> error_detail lib r = Ret head)
  /\ (str_nonempty (text r) = true -> json r = None ->
      error_detail lib r = Ret (head ++ " - " ++ text r))
  /\ (forall d,
        str_nonempty (text r) = true -> json r = Some (VDict d) ->
        dict_lookup d "errors" = None ->
        error_detail lib r = Ret (head ++ " - Unknown error"))
  /\ (forall d first rest,
        str_nonempty (text r) = true -> json r = Some (VDict d) ->
        dict_lookup d "errors" = Some (VList (VDict first :: rest)) ->
        error_detail lib r =
        Ret (head ++ " - " ++ match dict_lookup first "message" with
                              | Some m => py_str lib m
                              | None => "Unknown error"
                              end)).
Proof.
  cbv zeta. unfold error_detail, response_json. repeat split.
  - intros ->. reflexivity.
  - intros -> ->. reflexivity.
  - intros d -> -> Hd. simpl. rewrite Hd. reflexivity.
  - intros d first rest -> -> Hd. simpl. rewrite Hd. simpl.
    destruct (dict_lookup first "message"); reflexivity.
Qed.

(** A 4xx or 5xx other than 401 on the first dispatch is not retried:
    the request was sent once and the token stays in the cache.  The
    outcome is decided by the detail built from the body: [UpstreamError]
    with that detail when it is built, [InternalError] when building it
    raises (as it does for an ["errors"] that is an empty list).  The
    detail starts with the upstream status, followed by the message of the
    first entry of the body's ["errors"] list (["Unknown error"] when the
    list or the message is absent), by the raw text when the body is not
    JSON, or by nothing when the body is empty. *)
Theorem chat_upstream_error (msg : ChatMessage) (w w1 : World) (tok : value) (r : Response) :
  str_nonempty (strip (message msg)) = true ->
  get_ibm_token lib env w = (Ret tok, w1) ->
  inference env (List.length (sent w1)) (chat_request lib msg tok) = Responds r ->
  400 <= status_code r < 600 ->
  status_code r <> 401 ->
  let head := "HTTP Error: " ++ str_of_int (status_code r) in
  let outcome := fst (chat lib env msg w) in
  snd (chat lib env msg w) = record_sent (chat_request lib msg tok) w1
  /\ outcome = match error_detail lib r with
               | Ret d => Raise (UpstreamError d)
               | Raise _ => Raise InternalError
               end
  /\ (text r = "" -> outcome = Raise (UpstreamError head))
  /\ (str_nonempty (text r) = true -> json r = None ->
      outcome = Raise (UpstreamError (head ++ " - " ++ text r)))
  /\ (forall d,
        str_nonempty (text r) = true -> json r = Some (VDict d) ->
        dict_lookup d "errors" = None ->
        outcome = Raise (UpstreamError (head ++ " - Unknown error")))
  /\ (forall d first rest,
        str_nonempty (text r) = true -> json r = Some (VDict d) ->
        dict_lookup d "errors" = Some (VList (VDict first :: rest)) ->
        outcome =
        Raise (UpstreamError
                 (head ++ " - " ++ match dict_lookup first "message" with
                                   | Some m => py_str lib m
                                   | None => "Unknown error"
                                   end)))
  /\ (forall d,
        str_nonempty (text r) = true -> json r = Some (VDict d) ->
        dict_lookup d "errors" = Some (VList []) ->
        outcome = Raise InternalError).
Proof.
  intros Hmsg Htok H1 Hr Hs. cbv zeta.
  rewrite (chat_first_response msg w w1 tok r Hmsg Htok H1 Hs).
  unfold settle, raise_for_status.
  replace ((400 <=? status_code r) && (status_code r <? 600)) with true
    by (symmetry; rewrite andb_true_iff, Z.leb_le, Z.ltb_lt; lia).
  pose proof (error_detail_forms r) as F. cbv zeta in F.
  destruct F as (F1 & F2 & F3 & F4).
  split; [ reflexivity | ]. simpl fst.
  split; [ | split; [ | split; [ | split; [ | split ] ] ] ].
  - destruct (error_detail lib r) as [d | e] eqn:Hd; [ reflexivity | ].
    rewrite (error_detail_raises r e Hd). reflexivity.
  - intros Ht. rewrite (F1 Ht). reflexivity.
  - intros Ht Hj. rewrite (F2 Ht Hj). reflexivity.
  - intros d Ht Hj Hd. rewrite (F3 d Ht Hj Hd). reflexivity.
  - intros d first rest Ht Hj Hd. rewrite (F4 d first rest Ht Hj Hd). reflexivity.
  - intros d Ht Hj Hd. unfold error_detail, response_json. rewrite Ht, Hj. simpl.
    rewrite Hd. reflexivity.
Qed.

(** An answer of the first dispatch whose status is no 4xx or 5xx is
    parsed, whatever the status: a body that is not JSON, and a reply that
    pydantic does not accept as a string, give [UpstreamError] with the
    detail ["Invalid response from service"]; a reply it accepts is
    returned with the status ["success"].  The request was sent once. *)
Theorem chat_parses_answer (msg : ChatMessage) (w w1 : World) (tok : value) (r : Response) :
  str_nonempty (strip (message msg)) = true ->
  get_ibm_token lib env w = (Ret tok, w1) ->
  inference env (List.length (sent w1)) (chat_request lib msg tok) = Responds r ->
  ~ (400 <= status_code r < 600) ->
  let outcome := fst (chat lib env msg w) in
  snd (chat lib env msg w) = record_sent (chat_request lib msg tok) w1
  /\ (json r = None ->
      outcome = Raise (UpstreamError "Invalid response from service"))
  /\ (forall data reply,
        json r = Some data -> format_response lib data = Ret reply ->
        outcome =
        match validate_str lib reply with
        | Some s => Ret (ChatResponse.mk s "success")
        | None => Raise (UpstreamError "Invalid response from service")
        end).
Proof.
  intros Hmsg Htok H1 Hr. cbv zeta.
  assert (Hs : status_code r <> 401) by lia.
  rewrite (chat_first_response msg w w1 tok r Hmsg Htok H1 Hs).
  unfold settle, raise_for_status.
  replace ((400 <=? status_code r) && (status_code r <? 600)) with false
    by (symmetry; rewrite andb_false_iff, Z.leb_gt, Z.ltb_ge; lia).
  split; [ reflexivity | ]. simpl fst. unfold parse_response. split.
  - intros ->. reflexivity.
  - intros data reply -> ->. destruct (validate_str lib reply); reflexivity.
Qed.

(** After a first dispatch answered by a 401, what the cache holds when
    [chat] ends comes from the re-acquisition: the token that one
    returned (which is the rejected token again if the identity service
    grants the same one), or no token when it raised.  The re-acquisition
    never serves the old cache entry: it contacts the identity service. *)
Theorem chat_cache_after_401 (msg : ChatMessage) (w w1 : World) (tok : value) (r1 : Response) :
  str_nonempty (strip (message msg)) = true ->
  get_ibm_token lib env w = (Ret tok, w1) ->
  inference env (List.length (sent w1)) (chat_request lib msg tok) = Responds r1 ->
  status_code r1 = 401 ->
  token (token_cache (snd (chat lib env msg w))) =
  match fst (get_ibm_token lib env
               (snd (invalidate (record_sent (chat_request lib msg tok) w1)))) with
  | Ret tok' => tok'
  | Raise _ => VNone
  end
  /\ (token_posts w1 < token_posts (snd (chat lib env msg w)))%nat.
Proof.
  intros Hmsg Htok H1 H401.
  pose proof (get_ibm_token_stale
                (snd (invalidate (record_sent (chat_request lib msg tok) w1))) eq_refl)
    as Hposts.
  rewrite (chat_after_401 lib env msg w w1 tok r1 Hmsg Htok H1 H401).
  match goal with
  | |- context [get_ibm_token lib env (snd ?x)] =>
      destruct (get_ibm_token lib env (snd x)) as [[tok' | e] w3] eqn:Hg
  end; simpl fst; simpl in Hposts.
  - apply get_ibm_token_ret_frame in Hg.
    destruct (inference env (List.length (sent w3)) (chat_request lib msg tok'));
      simpl; split; [ exact Hg | exact Hposts | exact Hg | exact Hposts ].
  - apply get_ibm_token_raise_frame in Hg. destruct Hg as (Hc & _).
    simpl. rewrite Hc. split; [ reflexivity | exact Hposts ].
Qed.

(** ** Health reporter and cache *)

(** A health check that reports ["healthy"] leaves in the cache the token
    its readiness was computed from and sends nothing to the deployment; a
    health check that reports ["unhealthy"] leaves the cache as it was,
    after three requests to the identity service. *)
Theorem health_check_cache (w : World) :
  let w' := snd (health_check lib env w) in
  exists h,
    fst (health_check lib env w) = Ret h
    /\ sent w' = sent w
    /\ ((HealthResponse.status h = "healthy"
         /\ HealthResponse.api_ready h = truthy (token (token_cache w')))
        \/ (HealthResponse.status h = "unhealthy"
            /\ HealthResponse.api_ready h = false
            /\ token_cache w' = token_cache w
            /\ token_posts w' = (token_posts w + 3)%nat)).
Proof.
  cbv zeta. rewrite health_check_eq.
  destruct (get_ibm_token lib env w) as [[tok | e] w'] eqn:Hg; simpl.
  - eexists. split; [ reflexivity | ].
    split; [ exact (get_ibm_token_sent lib env _ _ _ Hg) | ]. left.
    apply get_ibm_token_ret_frame in Hg. rewrite Hg. split; reflexivity.
  - eexists. split; [ reflexivity | ].
    split; [ exact (get_ibm_token_sent lib env _ _ _ Hg) | ]. right.
    apply get_ibm_token_raise_frame in Hg. destruct Hg as (Hc & Hp & _).
    repeat split; assumption.
Qed.

(** ** Response normalizer on bodies of the expected shape *)

(** For a dict whose ["choices"] is a non-empty list that starts with a
    dict, the result is decided by that first choice alone: the content of
    its message; ["No response content"] when the message or its content
    is absent; the parse placeholder when the message is not a dict.  For a
    dict without ["choices"], or with a falsy one, the result is the string
    rendering of the dict. *)
Theorem format_response_first_choice :
  (forall d first rest,
     dict_lookup d "choices" = Some (VList (VDict first :: rest)) ->
     format_response lib (VDict d) =
     Ret (match dict_lookup first "message" with
          | None => VStr "No response content"
          | Some (VDict m) =>
              match dict_lookup m "content" with
              | Some c => c
              | None => VStr "No response content"
              end
          | Some _ => placeholder
          end))
  /\ (forall d,
        dict_lookup d "choices" = None ->
        format_response lib (VDict d) = Ret (VStr (py_str lib (VDict d))))
  /\ (forall d choices,
        dict_lookup d "choices" = Some choices -> truthy choices = false ->
        format_response lib (VDict d) = Ret (VStr (py_str lib (VDict d)))).
Proof.
  unfold format_response, format_response_try. repeat split.
  - intros d first rest Hd. simpl. rewrite Hd. simpl.
    destruct (dict_lookup first "message") as [m | ]; simpl.
    + destruct m; reflexivity.
    + reflexivity.
  - intros d Hd. simpl. rewrite Hd. reflexivity.
  - intros d choices Hd Ht. simpl. rewrite Hd. simpl. rewrite Ht. reflexivity.
Qed.

(** ** A successful call *)

(** The paths on which [chat] returns. *)
Lemma chat_returns_cases (msg : ChatMessage) (w w' : World) (c : ChatResponse.t) :
  chat lib env msg w = (Ret c, w') ->
  exists tok w1,
    get_ibm_token lib env w = (Ret tok, w1)
    /\ (w' = record_sent (chat_request lib msg tok) w1
        \/ exists tok' w3,
             get_ibm_token lib env
               (snd (invalidate (record_sent (chat_request lib msg tok) w1)))
             = (Ret tok', w3)
             /\ w' = record_sent (chat_request lib msg tok') w3).
Proof.
  rewrite chat_eq.
  destruct (str_nonempty (strip (message msg))); [ | discriminate ].
  destruct (get_ibm_token lib env w) as [[tok | e] w1] eqn:Htok; [ | discriminate ].
  intros H. exists tok, w1. split; [ reflexivity | ]. revert H.
  rewrite dispatch_eq. cbv zeta. unfold chat_request.
  match goal with
  | |- context [inference env ?n ?rq] => destruct (inference env n rq) as [k | r]
  end; [ discriminate | ].
  destruct (status_code r =? 401).
  - match goal with
    | |- context [get_ibm_token lib env (snd ?x)] =>
        destruct (get_ibm_token lib env (snd x)) as [[tok' | e] w3] eqn:Hg
    end; [ | discriminate ].
    match goal with
    | |- context [inference env ?n ?rq] => destruct (inference env n rq) as [k | r2]
    end; [ discriminate | ].
    destruct (settle lib r2) as [r' | e]; [ | discriminate ].
    destruct (parse_response lib r'); [ | discriminate ].
    intros H. injection H as _ <-. right. exists tok', w3. split; reflexivity.
  - destruct (settle lib r) as [r' | e]; [ | discriminate ].
    destruct (parse_response lib r'); [ | discriminate ].
    intros H. injection H as _ <-. left. reflexivity.
Qed.

(** When [chat] returns, the request sent last went to the endpoint of
    the [stream] flag with the payload of the message and with the token
    the cache holds after the call as its bearer token, and the result has
    the status ["success"]. *)
Theorem chat_success_token (msg : ChatMessage) (w w' : World) (c : ChatResponse.t) :
  chat lib env msg w = (Ret c, w') ->
  ChatResponse.status c = "success"
  /\ exists rq rest,
       sent w' = rq :: rest
       /\ request_for msg rq
       /\ authorization rq = "Bearer " ++ py_str lib (token (token_cache w')).
Proof.
  intros H.
  pose proof (chat_outcomes_nonblank msg w) as Hout.
  assert (Hmsg : str_nonempty (strip (message msg)) = true).
  { rewrite chat_eq in H. destruct (str_nonempty (strip (message msg)));
      [ reflexivity | discriminate ]. }
  specialize (Hout Hmsg). rewrite H in Hout. simpl in Hout. split; [ exact Hout | ].
  destruct (chat_returns_cases msg w w' c H) as
    (tok & w1 & Htok & [ -> | (tok' & w3 & Hg & ->) ]).
  - apply get_ibm_token_ret_frame in Htok.
    exists (chat_request lib msg tok), (sent w1). simpl. rewrite Htok.
    split; [ reflexivity | ]. split; [ apply chat_request_for | reflexivity ].
  - apply get_ibm_token_ret_frame in Hg.
    exists (chat_request lib msg tok'), (sent w3). simpl. rewrite Hg.
    split; [ reflexivity | ]. split; [ apply chat_request_for | reflexivity ].
Qed.

End Coverage.

(** ** The further properties on the sample settings *)

Lemma get_ibm_token_returns_cached_witness :
  fst (get_ibm_token sample_libs env_ok initial_world) = Ret (VStr "t")
  /\ token (token_cache (snd (get_ibm_token sample_libs env_ok initial_world))) = VStr "t".
Proof.
  split; [ reflexivity | ].
  apply (get_ibm_token_returns_cached sample_libs env_ok initial_world
           (snd (get_ibm_token sample_libs env_ok initial_world)) (VStr "t") eq_refl).
Defined.

Lemma get_ibm_token_failure_witness :
  fst (get_ibm_token sample_libs env_identity_down initial_world)
  = Raise AuthServiceUnavailable
  /\ token_posts (snd (get_ibm_token sample_libs env_identity_down initial_world)) = 3%nat.
Proof.
  split; [ reflexivity | ].
  apply (get_ibm_token_failure sample_libs env_identity_down initial_world
           (snd (get_ibm_token sample_libs env_identity_down initial_world))
           AuthServiceUnavailable eq_refl).
Defined.

Lemma fetched_token_lifetime_witness :
  fst (get_ibm_token sample_libs env_ok
         (snd (get_ibm_token_attempt sample_libs env_ok initial_world)))
  = Ret (VStr "t").
Proof.
  pose proof (fetched_token_lifetime sample_libs env_ok initial_world
                (snd (get_ibm_token_attempt sample_libs env_ok initial_world))
                (VStr "t") eq_refl eq_refl eq_refl eq_refl) as H.
  cbv zeta in H. destruct H as (H & _).
  apply H. simpl. lia.
Defined.

Lemma chat_upstream_error_witness :
  fst (chat sample_libs env_forbidden hello initial_world)
  = Raise (UpstreamError "HTTP Error: 403 - no access").
Proof.
  pose proof (chat_upstream_error sample_libs env_forbidden hello initial_world
                (snd (get_ibm_token sample_libs env_forbidden initial_world))
                (VStr "t") forbidden eq_refl eq_refl eq_refl) as H.
  cbv zeta in H. destruct H as (_ & _ & _ & _ & _ & H & _); [ simpl; lia | simpl; lia | ].
  apply (H [("errors", VList [VDict [("message", VStr "no access")]])]
           [("message", VStr "no access")] []); reflexivity.
Defined.

Lemma chat_parses_answer_witness :
  fst (chat sample_libs env_ok hello initial_world)
  = Ret (ChatResponse.mk "Hi there" "success").
Proof.
  pose proof (chat_parses_answer sample_libs env_ok hello initial_world
                (snd (get_ibm_token sample_libs env_ok initial_world))
                (VStr "t") (reply_response "Hi there") eq_refl eq_refl eq_refl) as H.
  cbv zeta in H. destruct H as (_ & _ & H); [ simpl; lia | ].
  apply (H (body_with_content (VStr "Hi there")) (VStr "Hi there")); reflexivity.
Defined.

Lemma chat_cache_after_401_witness :
  token (token_cache (snd (chat sample_libs env_always_401 hello initial_world))) = VStr "t".
Proof.
  exact (proj1 (chat_cache_after_401 sample_libs env_always_401 hello initial_world
                  (snd (get_ibm_token sample_libs env_always_401 initial_world))
                  (VStr "t") unauthorized eq_refl eq_refl eq_refl eq_refl)).
Defined.

Lemma chat_success_token_witness :
  exists rq rest,
    sent (snd (chat sample_libs env_ok hello initial_world)) = rq :: rest
    /\ authorization rq = "Bearer t".
Proof.
  destruct (chat_success_token sample_libs env_ok hello initial_world
              (snd (chat sample_libs env_ok hello initial_world))
              (ChatResponse.mk "Hi there" "success") eq_refl)
    as (_ & rq & rest & Hs & _ & Ha).
  exists rq, rest. split; [ exact Hs | exact Ha ].
Defined.

Lemma chat_dispatches_iff_witness :
  sent (snd (chat sample_libs env_identity_down hello initial_world)) = sent initial_world.
Proof.
  apply (chat_dispatches_iff sample_libs env_identity_down hello initial_world eq_refl).
  exists AuthServiceUnavailable.
  exists (snd (get_ibm_token sample_libs env_identity_down initial_world)).
  reflexivity.
Defined.
